(** * Snapshot testing helper (package [snapshot], file [snapshot.go])

    A shallow embedding of the snapshot lifecycle: configuration through
    functional options, the derivation of the snapshot file name, the
    create / compare / update decision of [Config.Assert], and the calls it
    makes to the operating system, the diff engine and the pattern matcher.

    Go strings are byte strings: they are [string] here (a list of 8-bit
    [ascii]); a [[]byte] is a [list byte]; an [int] is a [Z]; a Go pair
    [(value, error)] is a [result].

    The operating system is a model: a file system of directories and
    regular files without symbolic links and without permissions, a
    working directory, an environment, and what the device does to a
    write and to a close. Paths are looked up element by element, as the
    kernel does it: every element on the way has to be a directory that is
    there, also one that a later [..] leaves again; a name is at most
    [NAME_MAX] bytes and a path less than [PATH_MAX]. [os.MkdirAll] is the
    one of the Go library, which works on the text of the path. The
    libraries [regexp], [difflib] and [spew] are parameters. *)

From Stdlib Require Import ZArith Ascii String List Bool Lia.
From Stdlib.Strings Require Import Byte.
From stdpp Require Import base gmap strings list.

(** ** Errors *)

Inductive errno :=
| ENOENT | ENOTDIR | EISDIR | EBADF | EEXIST | EINVAL | ENAMETOOLONG | ENOSPC | EIO.

(** An [error] is either what package [os] returns (a [*PathError], or a
    [*SyscallError] from [os.Getwd]) or the error of one of the libraries
    (a pattern that does not compile, a diff that cannot be written). *)
Inductive error :=
| PathError (op : string) (path : string) (e : errno)
| SyscallError (call : string) (e : errno)
| LibError (msg : string).

Inductive result (A : Type) :=
| OK (a : A)
| Err (e : error).
Arguments OK {A} a.
Arguments Err {A} e.

Definition errno_string (e : errno) : string :=
  match e with
  | ENOENT => "no such file or directory"
  | ENOTDIR => "not a directory"
  | EISDIR => "is a directory"
  | EBADF => "bad file descriptor"
  | EEXIST => "file exists"
  | EINVAL => "invalid argument"
  | ENAMETOOLONG => "file name too long"
  | ENOSPC => "no space left on device"
  | EIO => "input/output error"
  end.

(** [err.Error()], which is what the verb [%s] prints. *)
Definition Error (e : error) : string :=
  match e with
  | PathError op p e => op +:+ " " +:+ p +:+ ": " +:+ errno_string e
  | SyscallError call e => call +:+ ": " +:+ errno_string e
  | LibError msg => msg
  end.

(** [os.IsNotExist]. *)
Definition os_IsNotExist (e : error) : bool :=
  match e with
  | PathError _ _ ENOENT => true
  | SyscallError _ ENOENT => true
  | _ => false
  end.

(** ** Strings *)

#[global] Instance byte_eq_decision : EqDecision byte := Byte.byte_eq_dec.

Definition nl : string := String (ascii_of_nat 10) "".

Fixpoint map_bytes (f : ascii -> ascii) (s : string) : string :=
  match s with
  | "" => ""
  | String c s' => String (f c) (map_bytes f s')
  end.

Fixpoint all_bytes (p : ascii -> bool) (s : string) : bool :=
  match s with
  | "" => true
  | String c s' => p c && all_bytes p s'
  end.

Fixpoint has_byte (c : ascii) (s : string) : bool :=
  match s with
  | "" => false
  | String d s' => if decide (c = d) then true else has_byte c s'
  end.

(** [c < utf8.RuneSelf] *)
Definition is_ascii (c : ascii) : bool := (nat_of_ascii c <? 128)%nat.

(** ['A' <= c && c <= 'Z'], then [c += 'a' - 'A'] *)
Definition lower_byte (c : ascii) : ascii :=
  let n := nat_of_ascii c in
  if ((65 <=? n) && (n <=? 90))%nat then ascii_of_nat (n + 32) else c.

(** [strings.NewReplacer] with one-byte old and new strings builds a byte
    table in which the first pair that names a byte wins; [Replace] maps
    every byte of its argument through the table. *)
Definition Replacer := list (ascii * ascii).

Fixpoint replace_byte (r : Replacer) (c : ascii) : ascii :=
  match r with
  | [] => c
  | (old, new) :: r' => if decide (c = old) then new else replace_byte r' c
  end.

Definition Replacer_Replace (r : Replacer) (s : string) : string :=
  map_bytes (replace_byte r) s.

(** ** Paths (package [path]) *)

(** [strings.Split(s, "/")]: the fields between the slashes. *)
Fixpoint split_slash (s : string) : list string :=
  match s with
  | "" => [""]
  | String c s' =>
      if decide (c = "/"%char) then "" :: split_slash s'
      else match split_slash s' with
           | [] => [String c ""]
           | f :: fs => String c f :: fs
           end
  end.

Fixpoint join_slash (elems : list string) : string :=
  match elems with
  | [] => ""
  | [e] => e
  | e :: es => e +:+ "/" +:+ join_slash es
  end.

Definition rooted (p : string) : bool :=
  match p with
  | String "/" _ => true
  | _ => false
  end.

(** The loop of [path.Clean] over the elements of the path. [stack] holds
    the elements written so far, the last one first. An empty element and
    [.] are dropped; [..] removes the element before it, is dropped at the
    root of a rooted path, and is kept where a relative path has nothing
    left to remove. *)
Fixpoint clean_elems (root : bool) (stack elems : list string) : list string :=
  match elems with
  | [] => rev stack
  | e :: es =>
      if decide (e = "") then clean_elems root stack es
      else if decide (e = ".") then clean_elems root stack es
      else if decide (e = "..") then
        match stack with
        | top :: rest =>
            if decide (top = "..") then clean_elems root (e :: stack) es
            else clean_elems root rest es
        | [] => if root then clean_elems root [] es
                else clean_elems root [e] es
        end
      else clean_elems root (e :: stack) es
  end.

Definition render (root : bool) (elems : list string) : string :=
  (if root then "/" else "") +:+ join_slash elems.

Definition path_Clean (p : string) : string :=
  if decide (p = "") then "."
  else
    let out := render (rooted p) (clean_elems (rooted p) [] (split_slash p)) in
    if decide (out = "") then "." else out.

(** [path.Join(a, b)]: empty arguments are ignored, the rest is joined with
    slashes and cleaned; two empty arguments give the empty string. *)
Definition path_Join (a b : string) : string :=
  if decide (a = "") then
    (if decide (b = "") then "" else path_Clean b)
  else path_Clean (a +:+ "/" +:+ b).

(** ** The file system and the process environment

    A file system is a finite map from the paths of its nodes (the names
    below the root, outermost first) to the nodes; the root is always a
    directory. There are no symbolic links and no permissions. The device
    may refuse a write after some bytes, and may report an error when a
    file is closed. *)

Inductive node :=
| Dir
| File (data : list byte).

Record world := World {
  fs : gmap (list string) node;
  cwd : list string;
  env : gmap string string;
  (** the next write fails with this error after this many bytes *)
  write_fault : option (nat * errno);
  (** closing a file reports this error *)
  close_fault : option errno
}.

Definition set_fs (w : world) (m : gmap (list string) node) : world :=
  World m (cwd w) (env w) (write_fault w) (close_fault w).

Definition Setenv (k v : string) (w : world) : world :=
  World (fs w) (cwd w) (<[k := v]> (env w)) (write_fault w) (close_fault w).

Definition Unsetenv (k : string) (w : world) : world :=
  World (fs w) (cwd w) (delete k (env w)) (write_fault w) (close_fault w).

Definition node_at (w : world) (k : list string) : option node :=
  match k with
  | [] => Some Dir
  | _ => fs w !! k
  end.

Definition parent (k : list string) : list string := removelast k.

(** The limits of the kernel on a name and on a path (which counts its
    closing zero byte). *)
Definition NAME_MAX : nat := 255.
Definition PATH_MAX : nat := 4096.

(** Where a path leads: to a node, to a free name in a directory that is
    there, or nowhere. *)
Inductive located :=
| Found (k : list string) (n : node)
| Absent (k : list string)
| Failed (e : errno).

(** The walk of the kernel over the elements of a path, from the node
    [cur]. Before every element the node reached has to be a directory;
    an empty element and [.] stay in it, [..] goes to the directory above
    (the root is above itself), a name goes to the entry of that name. *)
Fixpoint seek (w : world) (cur elems : list string) : located :=
  match elems with
  | [] =>
      match node_at w cur with
      | Some n => Found cur n
      | None => Absent cur
      end
  | e :: es =>
      match node_at w cur with
      | Some Dir =>
          if decide (e = "") then seek w cur es
          else if decide (e = ".") then seek w cur es
          else if decide (e = "..") then seek w (parent cur) es
          else if (NAME_MAX <? String.length e)%nat then Failed ENAMETOOLONG
          else seek w (cur ++ [e]) es
      | Some (File _) => Failed ENOTDIR
      | None => Failed ENOENT
      end
  end.

(** A path handed to the kernel: the empty path names nothing, a path
    with a zero byte is refused, a rooted path starts at the root and any
    other at the working directory. *)
Definition locate (w : world) (p : string) : located :=
  if decide (p = "") then Failed ENOENT
  else if has_byte "000" p then Failed EINVAL
  else if (PATH_MAX <=? String.length p)%nat then Failed ENAMETOOLONG
  else seek w (if rooted p then [] else cwd w) (split_slash p).

(** [os.Stat] and [os.Lstat], which are the same without symbolic
    links. *)
Definition lookup_node (w : world) (op p : string) : result node :=
  match locate w p with
  | Found _ n => OK n
  | Absent _ => Err (PathError op p ENOENT)
  | Failed e => Err (PathError op p e)
  end.

(** The elements of a path without the empty ones at its end: the system
    call [mkdir] takes a path with slashes at its end. *)
Fixpoint drop_empty (rev_elems : list string) : list string :=
  match rev_elems with
  | e :: es => if decide (e = "") then drop_empty es else rev_elems
  | [] => []
  end.

Definition strip_slashes (elems : list string) : list string :=
  rev (drop_empty (rev elems)).

Definition locate_new (w : world) (p : string) : located :=
  if decide (p = "") then Failed ENOENT
  else if has_byte "000" p then Failed EINVAL
  else if (PATH_MAX <=? String.length p)%nat then Failed ENAMETOOLONG
  else seek w (if rooted p then [] else cwd w) (strip_slashes (split_slash p)).

(** [os.Mkdir]: one directory, in a directory that is there. *)
Definition mkdir (w : world) (p : string) : option error * world :=
  match locate_new w p with
  | Found _ _ => (Some (PathError "mkdir" p EEXIST), w)
  | Absent k => (None, set_fs w (<[k := Dir]> (fs w)))
  | Failed e => (Some (PathError "mkdir" p e), w)
  end.

(** The recursion of [os.MkdirAll] of the Go library on the text of the
    path, whose elements are [rev_elems], the last one first. With
    [whole] it is [MkdirAll] of that path: nothing to do where [os.Stat]
    finds a directory, an error where it finds a file; otherwise
    [MkdirAll] of the path before the last element (slashes at the end
    skipped), then [os.Mkdir] of the path, whose error is dropped where
    [os.Lstat] then finds a directory. Without [whole] it is only the
    [MkdirAll] of the path before the last element. *)
Fixpoint mkdir_rec (whole : bool) (rev_elems : list string) (w : world)
  : option error * world :=
  match rev_elems with
  | [] => (None, w)
  | e :: above =>
      let path := join_slash (rev (e :: above)) in
      let parents (w : world) :=
        if decide (e = "") then mkdir_rec false above w
        else if decide (join_slash (rev above) = "") then (None, w)
        else mkdir_rec true above w in
      if whole then
        match lookup_node w "stat" path with
        | OK Dir => (None, w)
        | OK (File _) => (Some (PathError "mkdir" path ENOTDIR), w)
        | Err _ =>
            match parents w with
            | (Some err, w1) => (Some err, w1)
            | (None, w1) =>
                match mkdir w1 path with
                | (None, w2) => (None, w2)
                | (Some err, w2) =>
                    match lookup_node w2 "lstat" path with
                    | OK Dir => (None, w2)
                    | _ => (Some err, w2)
                    end
                end
            end
        end
      else parents w
  end.

Definition MkdirAll (w : world) (p : string) : option error * world :=
  mkdir_rec true (rev (split_slash p)) w.

(** The entry that a path names by its text, as [path.Clean] reads it:
    every [..] cancels the name before it, whether that name is there or
    not. The kernel does not look a path up this way (that is [seek]); the
    two agree where the kernel finds a node. *)
Fixpoint walk (cur elems : list string) : list string :=
  match elems with
  | [] => cur
  | e :: es =>
      if decide (e = "") then walk cur es
      else if decide (e = ".") then walk cur es
      else if decide (e = "..") then walk (tail cur) es
      else walk (e :: cur) es
  end.

Definition resolve (w : world) (p : string) : option (list string) :=
  if decide (p = "") then None
  else Some (rev (walk (if rooted p then [] else rev (cwd w)) (split_slash p))).

(** The handle [*os.File] of an open file. *)
Record os_File := { fd_key : list string; fd_name : string }.

(** ** Test computations

    A computation of the test goroutine reads and changes the world, calls
    its collaborators, and either returns or is stopped by [t.Fatalf]
    (which logs the message and ends the goroutine). The trace records the
    calls that leave the package: to the operating system, to the diff
    engine and to the pattern matcher. *)

Inductive call :=
| CallGetwd
| CallStat (p : string)
| CallMkdirAll (p : string)
| CallCreate (p : string)
| CallWrite (p : string) (b : list byte)
| CallClose (p : string)
| CallReadFile (p : string)
| CallLookupEnv (k : string)
| CallUnifiedDiff (a b : list string) (context : Z)
| CallFindStringIndex (s : string).

Inductive outcome (A : Type) :=
| Done (a : A)
| Fatal (msg : string).
Arguments Done {A} a.
Arguments Fatal {A} msg.

Record run (A : Type) := Run {
  out : outcome A;
  final : world;
  trace : list call
}.
Arguments Run {A} out final trace.
Arguments out {A} r.
Arguments final {A} r.
Arguments trace {A} r.

Definition Test (A : Type) : Type := world -> run A.

Definition ret {A} (a : A) : Test A := fun w => Run (Done a) w [].

Definition bind {A B} (m : Test A) (f : A -> Test B) : Test B :=
  fun w =>
    let r := m w in
    match out r with
    | Done a =>
        let r' := f a (final r) in
        Run (out r') (final r') (trace r ++ trace r')
    | Fatal msg => Run (Fatal msg) (final r) (trace r)
    end.

Declare Scope test_scope.
Delimit Scope test_scope with test.
Notation "x <- m ;; k" := (bind m (fun x => k))
  (at level 100, m at next level, right associativity) : test_scope.
Notation "m ;;; k" := (bind m (fun _ => k))
  (at level 100, right associativity) : test_scope.
Open Scope test_scope.

(** [t.Fatalf(msg)] *)
Definition Fatalf {A} (msg : string) : Test A := fun w => Run (Fatal msg) w [].

(** An operating-system call: it is recorded, may change the world, and
    returns. *)
Definition syscall {A} (c : call) (f : world -> A * world) : Test A :=
  fun w => let '(a, w') := f w in Run (Done a) w' [c].

Definition passes {A} (r : run A) : Prop := exists a, out r = Done a.

(** ** Package [os] *)

(** [os.Getwd]: the working directory, where it is still there. *)
Definition os_Getwd : Test (result string) :=
  syscall CallGetwd (fun w =>
    (match node_at w (cwd w) with
     | Some Dir => OK (render true (cwd w))
     | _ => Err (SyscallError "getwd" ENOENT)
     end, w)).

Definition os_Stat (p : string) : Test (result node) :=
  syscall (CallStat p) (fun w => (lookup_node w "stat" p, w)).

(** [os.MkdirAll]. Permissions are not part of the model. *)
Definition os_MkdirAll (p : string) (perm : Z) : Test (option error) :=
  syscall (CallMkdirAll p) (fun w => MkdirAll w p).

(** The error of [open] with [O_CREAT] for a path that leads nowhere: a
    free name followed by a slash is refused as a directory. *)
Definition create_errno (w : world) (p : string) (e : errno) : errno :=
  match locate_new w p with
  | Absent _ => EISDIR
  | _ => e
  end.

(** [os.Create]: the file is created, or truncated where it exists; its
    directory has to exist. *)
Definition os_Create (p : string) : Test (result os_File) :=
  syscall (CallCreate p) (fun w =>
    match locate w p with
    | Found k Dir => (Err (PathError "open" p EISDIR), w)
    | Found k (File _) | Absent k =>
        (OK {| fd_key := k; fd_name := p |},
         set_fs w (<[k := File []]> (fs w)))
    | Failed e => (Err (PathError "open" p (create_errno w p e)), w)
    end).

(** [f.Write(b)] appends at the offset of the handle, which is the end of
    what it wrote before. Where the device refuses, the bytes it took
    before are in the file and the error is returned. *)
Definition File_Write (f : os_File) (b : list byte) : Test (result Z) :=
  syscall (CallWrite (fd_name f) b) (fun w =>
    match node_at w (fd_key f) with
    | Some (File old) =>
        match write_fault w with
        | None =>
            (OK (Z.of_nat (length b)),
             set_fs w (<[fd_key f := File (old ++ b)]> (fs w)))
        | Some (n, e) =>
            (Err (PathError "write" (fd_name f) e),
             set_fs w (<[fd_key f := File (old ++ take n b)]> (fs w)))
        end
    | _ => (Err (PathError "write" (fd_name f) EBADF), w)
    end).

Definition File_Close (f : os_File) : Test (option error) :=
  syscall (CallClose (fd_name f)) (fun w =>
    (match close_fault w with
     | Some e => Some (PathError "close" (fd_name f) e)
     | None => None
     end, w)).

Definition ioutil_ReadFile (p : string) : Test (result (list byte)) :=
  syscall (CallReadFile p) (fun w =>
    (match lookup_node w "open" p with
     | OK (File data) => OK data
     | OK Dir => Err (PathError "read" p EISDIR)
     | Err e => Err e
     end, w)).

(** [os.LookupEnv]: the value and whether the variable is present. *)
Definition os_LookupEnv (k : string) : Test (string * bool) :=
  syscall (CallLookupEnv k) (fun w =>
    (match env w !! k with
     | Some v => (v, true)
     | None => ("", false)
     end, w)).

(** ** The libraries the package calls

    [regexp], [difflib], [spew] and the Unicode tables behind
    [strings.ToLower] are not part of the package: the development is
    parametric in them. *)

Module difflib.
(** [difflib.UnifiedDiff] *)
Record UnifiedDiff := {
A : list string;
B : list string;
FromFile : string;
ToFile : string;
Context : Z
}.
End difflib.

Class Libraries := {
  (** a compiled pattern, [*regexp.Regexp] *)
  Regexp : Type;
  regexp_Compile : string -> result Regexp;
  (** the leftmost match, or [nil] *)
  Regexp_find : Regexp -> string -> option (Z * Z);
  difflib_SplitLines : string -> list string;
  difflib_unified : difflib.UnifiedDiff -> result string;
  (** [strings.Map(unicode.ToLower, s)] *)
  unicode_ToLower : string -> string;
  (** a value of type [interface{}] that is not a [[]byte] *)
  value : Type;
  (** what [spew.ConfigState{DisablePointerAddresses: true}.Fdump] writes *)
  spew_Fdump : value -> list byte
}.

Module Config.
(** [type Config struct] *)
Record t {Regexp : Type} := mk {
  Directory : string;
  Context : Z;
  Diffable : bool;
  Extension : string;
  ignore : option Regexp
}.
Arguments t : clear implicits.
Arguments mk {Regexp}.
End Config.

(** [testing.TB]: the package reads the name of the test, marks itself as
    a helper (which only changes the line numbers of the log) and stops
    the test with [Fatalf]. *)
Record TB := { Name : string }.

Definition TB_Helper (t : TB) : Test unit := ret tt.

(** An argument of type [interface{}]. *)
Inductive any {V : Type} :=
| Bytes (b : list byte)
| Other (v : V).
Arguments any : clear implicits.

Section Package.
Context {L : Libraries}.

Definition Config : Type := Config.t Regexp.

(** [type ConfigOption func(c *Config) error]: the configuration after
    the call, or the error (with which [New] drops the configuration). *)
Definition ConfigOption : Type := Config -> result Config.

Definition strings_ToLower (s : string) : string :=
  if all_bytes is_ascii s then map_bytes lower_byte s else unicode_ToLower s.

Definition bytes_Equal (a b : list byte) : bool :=
  if decide (a = b) then true else false.

Definition Regexp_FindStringIndex (re : Regexp) (s : string) : Test (option (Z * Z)) :=
  fun w => Run (Done (Regexp_find re s)) w [CallFindStringIndex s].

Definition difflib_GetUnifiedDiffString (d : difflib.UnifiedDiff)
  : Test (result string) :=
  fun w => Run (Done (difflib_unified d)) w
             [CallUnifiedDiff (difflib.A d) (difflib.B d) (difflib.Context d)].

(** The loop of [New] over its options. *)
Fixpoint apply_options (options : list ConfigOption) (c : Config) : result Config :=
  match options with
  | [] => OK c
  | opt :: rest =>
      match opt c with
      | Err err => Err err
      | OK c' => apply_options rest c'
      end
  end.

Definition New (options : list ConfigOption) : Test (result Config) :=
  r <- os_Getwd ;;
  match r with
  | Err err => ret (Err err)
  | OK wd =>
      ret (apply_options options
             (Config.mk (path_Join wd "__snapshots__") 10 true ".snap" None))
  end.

Definition SnapDirectory (dir : string) : ConfigOption :=
  fun c => OK (Config.mk dir (Config.Context c) (Config.Diffable c)
                         (Config.Extension c) (Config.ignore c)).

Definition ContextLines (n : Z) : ConfigOption :=
  fun c => OK (Config.mk (Config.Directory c) n (Config.Diffable c)
                         (Config.Extension c) (Config.ignore c)).

Definition Diffable (b : bool) : ConfigOption :=
  fun c => OK (Config.mk (Config.Directory c) (Config.Context c) b
                         (Config.Extension c) (Config.ignore c)).

Definition IgnoreRegex (r : string) : ConfigOption :=
  fun c =>
    match regexp_Compile r with
    | Err err => Err err
    | OK reg => OK (Config.mk (Config.Directory c) (Config.Context c)
                              (Config.Diffable c) (Config.Extension c) (Some reg))
    end.

Definition SnapExtension (ext : string) : ConfigOption :=
  fun c => OK (Config.mk (Config.Directory c) (Config.Context c)
                         (Config.Diffable c) ext (Config.ignore c)).

Definition isUpdateable : Test bool :=
  r <- os_LookupEnv "UPDATE_SNAPSHOTS" ;;
  let '(_, ok) := r in
  ret ok.

Definition snapReplacer : Replacer :=
  [("'", "-"); (" ", "-"); ("<", "-"); (">", "-");
   ("&", "-"); ("#", "-"); ("/", "-"); ("\", "-")]%char.

Definition getSnapFilename (testname ext : string) : string :=
  let r := snapReplacer in
  Replacer_Replace r (strings_ToLower testname) +:+ ext.

Definition createSnapshot (testname : string) (b : list byte) (dir ext : string)
  : Test (option error) :=
  let snapFile := getSnapFilename testname ext in
  r <- os_Create (path_Join dir snapFile) ;;
  match r with
  | Err err => ret (Some err)
  | OK f =>
      r <- File_Write f b ;;
      match r with
      | Err err => ret (Some err)
      | OK _ => File_Close f
      end
  end.

Definition readSnapshot (testname dir ext : string) : Test (result (list byte)) :=
  ioutil_ReadFile (path_Join dir (getSnapFilename testname ext)).

Definition getDiff (expected b : list byte) (context : Z) : Test (result string) :=
  let diff := {|
    difflib.A := difflib_SplitLines (string_of_list_byte expected);
    difflib.B := difflib_SplitLines (string_of_list_byte b);
    difflib.FromFile := "Expected";
    difflib.ToFile := "Received";
    difflib.Context := context
  |} in
  difflib_GetUnifiedDiffString diff.

(** [func (c *Config) Assert(t testing.TB, b []byte)] *)
Definition Config_Assert (c : Config) (t : TB) (b : list byte) : Test unit :=
  TB_Helper t ;;;
  st <- os_Stat (Config.Directory c) ;;
  if match st with Err err => os_IsNotExist err | OK _ => false end then
    u <- isUpdateable ;;
    if u then
      e <- os_MkdirAll (Config.Directory c) 511 (* 0777 *) ;;
      match e with
      | Some _ => Fatalf "Unable to create the snapshot directory, failing"
      | None => ret tt
      end ;;;
      e <- createSnapshot (Name t) b (Config.Directory c) (Config.Extension c) ;;
      match e with
      | Some err => Fatalf ("Unable to create snapshot: " +:+ Error err)
      | None => ret tt
      end
    else
      Fatalf "No snapshot directory exists and UPDATE_SNAPSHOTS=false.  Failing."
  else
    r <- readSnapshot (Name t) (Config.Directory c) (Config.Extension c) ;;
    match r with
    | Err _ =>
        e <- createSnapshot (Name t) b (Config.Directory c) (Config.Extension c) ;;
        match e with
        | Some err => Fatalf ("Unable to create snapshot: " +:+ Error err)
        | None => ret tt
        end
    | OK expected =>
        if bytes_Equal expected b then ret tt
        else
          u <- isUpdateable ;;
          if u then
            e <- createSnapshot (Name t) b (Config.Directory c) (Config.Extension c) ;;
            match e with
            | Some err => Fatalf ("Unable to create snapshot: " +:+ Error err)
            | None => ret tt
            end
          else if Config.Diffable c then
            d <- getDiff expected b (Config.Context c) ;;
            match d with
            | Err err =>
                Fatalf ("Unable to compare snapshot to test output: " +:+ Error err)
            | OK diff =>
                ignored <-
                  match Config.ignore c with
                  | Some re =>
                      m <- Regexp_FindStringIndex re diff ;;
                      ret (match m with Some _ => true | None => false end)
                  | None => ret false
                  end ;;
                if ignored : bool then ret tt
                else Fatalf ("Snapshot test failed for: " +:+ Name t +:+
                             ".  Diff:" +:+ nl +:+ nl +:+ diff)
            end
          else
            Fatalf ("Snapshot test failed for: " +:+ Name t +:+
                    ".  Diff: (undiffable binary format)")
    end.

(** [func Assert(t testing.TB, b interface{})] *)
Definition Assert (t : TB) (b : any value) : Test unit :=
  r <- New [] ;;
  match r with
  | Err err => Fatalf ("Unable to create new snapshot config: " +:+ Error err)
  | OK c =>
      match b with
      | Bytes b => Config_Assert c t b
      | Other v => Config_Assert c t (spew_Fdump v)
      end
  end.

End Package.

(** ** What a test can observe of the world *)

Section Observations.
Context {L : Libraries}.

(** The path of the snapshot of test [t]. *)
Definition snapPath (c : Config) (t : TB) : string :=
  path_Join (Config.Directory c) (getSnapFilename (Name t) (Config.Extension c)).

(** The bytes of the file at path [p], where there is one. *)
Definition file_at (w : world) (p : string) : option (list byte) :=
  match locate w p with
  | Found _ (File data) => Some data
  | _ => None
  end.

(** The stored snapshot of test [t]. *)
Definition stored (w : world) (c : Config) (t : TB) : option (list byte) :=
  file_at w (snapPath c t).

(** Path [p] leads to a free name in a directory that is there: nothing,
    neither a file nor a directory, is at [p]. *)
Definition nothing_at (w : world) (p : string) : Prop :=
  exists k, locate w p = Absent k.

Definition is_dir (w : world) (p : string) : Prop :=
  exists k, locate w p = Found k Dir.

(** The device takes what is written and closes without error. *)
Definition healthy (w : world) : Prop :=
  write_fault w = None /\ close_fault w = None.

(** The test [os.Stat] followed by [os.IsNotExist] of [Config.Assert]. *)
Definition not_exist (w : world) (p : string) : bool :=
  match lookup_node w "stat" p with
  | Err err => os_IsNotExist err
  | OK _ => false
  end.

(** The variable [UPDATE_SNAPSHOTS] is in the environment. *)
Definition update_mode (w : world) : bool :=
  bool_decide (is_Some (env w !! "UPDATE_SNAPSHOTS")).

(** A file name that names an entry of the directory it is joined to:
    not empty, without a slash, and neither [.] nor [..]. *)
Definition simple_name (f : string) : bool :=
  negb (bool_decide (f = "")) && negb (has_byte "/" f) &&
  negb (bool_decide (f = ".")) && negb (bool_decide (f = "..")).

(** The diff text that [getDiff] asks the diff engine for. *)
Definition diff_text (expected b : list byte) (context : Z) : result string :=
  difflib_unified {|
    difflib.A := difflib_SplitLines (string_of_list_byte expected);
    difflib.B := difflib_SplitLines (string_of_list_byte b);
    difflib.FromFile := "Expected";
    difflib.ToFile := "Received";
    difflib.Context := context
  |}.

(** The options the package provides, as data. *)
Inductive option_spec :=
| OptSnapDirectory (dir : string)
| OptContextLines (n : Z)
| OptDiffable (b : bool)
| OptIgnoreRegex (r : string)
| OptSnapExtension (ext : string).

Definition to_option (o : option_spec) : ConfigOption :=
  match o with
  | OptSnapDirectory dir => SnapDirectory dir
  | OptContextLines n => ContextLines n
  | OptDiffable b => Diffable b
  | OptIgnoreRegex r => IgnoreRegex r
  | OptSnapExtension ext => SnapExtension ext
  end.

(** The argument of the last [ContextLines] among the options, or the
    default. *)
Definition last_context (specs : list option_spec) : Z :=
  fold_left (fun acc o => match o with OptContextLines n => n | _ => acc end)
            specs 10%Z.

Definition context_args (specs : list option_spec) : list Z :=
  omap (fun o => match o with OptContextLines n => Some n | _ => None end) specs.

(** The byte that [getSnapFilename] writes for a byte of the lower-cased
    name, as the documentation states it. *)
Definition dashed (c : ascii) : ascii :=
  if has_byte c "' <>&#/\" then "-"%char else c.

(** An element that [path.Clean] keeps as a name. *)
Definition is_name (e : string) : Prop := e <> "" /\ e <> "." /\ e <> "..".

(** An element without a slash that is not empty. *)
Definition is_elem (e : string) : Prop := e <> "" /\ has_byte "/" e = false.

(** The messages of [Config.Assert]. *)
Definition msg_no_directory : string :=
  "No snapshot directory exists and UPDATE_SNAPSHOTS=false.  Failing.".

Definition msg_undiffable (t : TB) : string :=
  "Snapshot test failed for: " +:+ Name t +:+ ".  Diff: (undiffable binary format)".

Definition msg_diff (t : TB) (diff : string) : string :=
  "Snapshot test failed for: " +:+ Name t +:+ ".  Diff:" +:+ nl +:+ nl +:+ diff.

(** The outcome of a comparison whose diff text is [diff]. *)
Definition verdict (c : Config) (t : TB) (diff : string) : outcome unit :=
  match Config.ignore c with
  | Some re =>
      match Regexp_find re diff with
      | Some _ => Done tt
      | None => Fatal (msg_diff t diff)
      end
  | None => Fatal (msg_diff t diff)
  end.

Definition find_calls (c : Config) (diff : string) : list call :=
  match Config.ignore c with
  | Some _ => [CallFindStringIndex diff]
  | None => []
  end.

(** The configuration [c] with another ignore pattern. *)
Definition set_ignore (ig : option Regexp) (c : Config) : Config :=
  Config.mk (Config.Directory c) (Config.Context c) (Config.Diffable c)
            (Config.Extension c) ig.

(** The test, or the process around it, changes the environment. *)
Definition os_Setenv (k v : string) : Test unit :=
  fun w => Run (Done tt) (Setenv k v w) [].

Definition os_Unsetenv (k : string) : Test unit :=
  fun w => Run (Done tt) (Unsetenv k w) [].

End Observations.

(** ** A small instance of the libraries

    Patterns are literal strings (one with an unclosed parenthesis does not
    compile), a diff lists the lines of both sides under the two file
    labels, and values are numbers dumped as one byte. It serves to run the
    package on concrete inputs. *)

Definition literal_find (re s : string) : option (Z * Z) :=
  match index 0 re s with
  | Some n => Some (Z.of_nat n, Z.of_nat (n + String.length re))
  | None => None
  end.

Definition listing (d : difflib.UnifiedDiff) : string :=
  "--- " +:+ difflib.FromFile d +:+ nl +:+ "+++ " +:+ difflib.ToFile d +:+ nl +:+
  String.concat "" (map (fun l => "-" +:+ l) (difflib.A d)) +:+
  String.concat "" (map (fun l => "+" +:+ l) (difflib.B d)).

Definition literal_libs : Libraries := {|
  Regexp := string;
  regexp_Compile r :=
    if has_byte "(" r && negb (has_byte ")" r)
    then Err (LibError "error parsing regexp: missing closing )")
    else OK r;
  Regexp_find := literal_find;
  difflib_SplitLines s := [s];
  difflib_unified d := OK (listing d);
  unicode_ToLower s := s;
  value := nat;
  spew_Fdump n := Byte.x28 :: repeat Byte.x2a n ++ [Byte.x29]
|}.

(** A world with the directory [/w/__snapshots__] and one stored snapshot. *)
Definition bytes (s : string) : list byte := list_byte_of_string s.

Definition demo_world : world := {|
  fs := <[ ["w"; "__snapshots__"; "testold.snap"] := File (bytes "old") ]>
        (<[ ["w"; "__snapshots__"] := Dir ]> (<[ ["w"] := Dir ]> ∅));
  cwd := ["w"];
  env := ∅;
  write_fault := None;
  close_fault := None
|}.

(** A configuration with the default context and extension. *)
Definition demo_with (dir : string) (diffable : bool) (ig : option string)
  : Config (L := literal_libs) :=
  Config.mk dir 10 diffable ".snap" ig.

Definition demo_config : Config (L := literal_libs) :=
  demo_with "/w/__snapshots__" true None.

(** The diff text of the stored [old] and the asserted [new]. *)
Definition demo_diff : string :=
  listing {| difflib.A := ["old"]; difflib.B := ["new"];
             difflib.FromFile := "Expected"; difflib.ToFile := "Received";
             difflib.Context := 10 |}.

(** ** The runs of [Config.Assert], branch by branch *)

Section Branches.
Context {L : Libraries}.

(** [os.Create] opens the path [p] as the file of key [k]: the path leads
    to a regular file, or to a free name in a directory that is there. *)
Definition creatable (w : world) (p : string) (k : list string) : Prop :=
  locate w p = Absent k \/ exists old, locate w p = Found k (File old).

(** The world in which the file of key [k] holds [data]. *)
Definition with_file (w : world) (k : list string) (data : list byte) : world :=
  set_fs w (<[k := File data]> (fs w)).

(** What [createSnapshot] returns for the path [p], the world it leaves
    and the calls it makes: the file cannot be created; or it is created
    and the write fails, which leaves in it the bytes written before the
    failure; or it holds the bytes [b] and the close fails; or it holds
    the bytes [b] and nothing failed. *)
Inductive create_outcome (w : world) (p : string) (b : list byte)
  : option error -> world -> list call -> Prop :=
| create_refused (err : error) :
    os_Create p w = Run (Done (Err err)) w [CallCreate p] ->
    create_outcome w p b (Some err) w [CallCreate p]
| create_write_fails (k : list string) (n : nat) (e : errno) :
    creatable w p k ->
    write_fault w = Some (n, e) ->
    create_outcome w p b (Some (PathError "write" p e)) (with_file w k (take n b))
                   [CallCreate p; CallWrite p b]
| create_close_fails (k : list string) (e : errno) :
    creatable w p k ->
    write_fault w = None ->
    close_fault w = Some e ->
    create_outcome w p b (Some (PathError "close" p e)) (with_file w k b)
                   [CallCreate p; CallWrite p b; CallClose p]
| create_written (k : list string) :
    creatable w p k ->
    healthy w ->
    create_outcome w p b None (with_file w k b)
                   [CallCreate p; CallWrite p b; CallClose p].

(** The end of an assertion that has called [createSnapshot]. *)
Definition finish (e : option error) : outcome unit :=
  match e with
  | Some err => Fatal ("Unable to create snapshot: " +:+ Error err)
  | None => Done tt
  end.

Definition msg_mkdir : string := "Unable to create the snapshot directory, failing".

Definition msg_compare (err : error) : string :=
  "Unable to compare snapshot to test output: " +:+ Error err.

Definition diff_call (expected b : list byte) (context : Z) : call :=
  CallUnifiedDiff (difflib_SplitLines (string_of_list_byte expected))
                  (difflib_SplitLines (string_of_list_byte b)) context.

(** The branches of [Config.Assert], each with the run it gives. *)
Inductive Assert_branch (c : Config) (t : TB) (b : list byte) (w : world)
  : run unit -> Prop :=
| branch_no_directory :
    not_exist w (Config.Directory c) = true ->
    update_mode w = false ->
    Assert_branch c t b w
      (Run (Fatal msg_no_directory) w
           [CallStat (Config.Directory c); CallLookupEnv "UPDATE_SNAPSHOTS"])
| branch_mkdir_fails (err : error) (w1 : world) :
    not_exist w (Config.Directory c) = true ->
    update_mode w = true ->
    MkdirAll w (Config.Directory c) = (Some err, w1) ->
    Assert_branch c t b w
      (Run (Fatal msg_mkdir) w1
           [CallStat (Config.Directory c); CallLookupEnv "UPDATE_SNAPSHOTS";
            CallMkdirAll (Config.Directory c)])
| branch_mkdir (w1 : world) (e : option error) (w' : world) (tr : list call) :
    not_exist w (Config.Directory c) = true ->
    update_mode w = true ->
    MkdirAll w (Config.Directory c) = (None, w1) ->
    create_outcome w1 (snapPath c t) b e w' tr ->
    Assert_branch c t b w
      (Run (finish e) w'
           ([CallStat (Config.Directory c); CallLookupEnv "UPDATE_SNAPSHOTS";
             CallMkdirAll (Config.Directory c)] ++ tr))
| branch_first (e : option error) (w' : world) (tr : list call) :
    not_exist w (Config.Directory c) = false ->
    stored w c t = None ->
    create_outcome w (snapPath c t) b e w' tr ->
    Assert_branch c t b w
      (Run (finish e) w'
           ([CallStat (Config.Directory c); CallReadFile (snapPath c t)] ++ tr))
| branch_equal :
    not_exist w (Config.Directory c) = false ->
    stored w c t = Some b ->
    Assert_branch c t b w
      (Run (Done tt) w [CallStat (Config.Directory c); CallReadFile (snapPath c t)])
| branch_update (expected : list byte) (e : option error) (w' : world)
    (tr : list call) :
    not_exist w (Config.Directory c) = false ->
    stored w c t = Some expected ->
    expected <> b ->
    update_mode w = true ->
    create_outcome w (snapPath c t) b e w' tr ->
    Assert_branch c t b w
      (Run (finish e) w'
           ([CallStat (Config.Directory c); CallReadFile (snapPath c t);
             CallLookupEnv "UPDATE_SNAPSHOTS"] ++ tr))
| branch_diff_error (expected : list byte) (err : error) :
    not_exist w (Config.Directory c) = false ->
    stored w c t = Some expected ->
    expected <> b ->
    update_mode w = false ->
    Config.Diffable c = true ->
    diff_text expected b (Config.Context c) = Err err ->
    Assert_branch c t b w
      (Run (Fatal (msg_compare err)) w
           [CallStat (Config.Directory c); CallReadFile (snapPath c t);
            CallLookupEnv "UPDATE_SNAPSHOTS";
            diff_call expected b (Config.Context c)])
| branch_diff (expected : list byte) (diff : string) :
    not_exist w (Config.Directory c) = false ->
    stored w c t = Some expected ->
    expected <> b ->
    update_mode w = false ->
    Config.Diffable c = true ->
    diff_text expected b (Config.Context c) = OK diff ->
    Assert_branch c t b w
      (Run (verdict c t diff) w
           ([CallStat (Config.Directory c); CallReadFile (snapPath c t);
             CallLookupEnv "UPDATE_SNAPSHOTS";
             diff_call expected b (Config.Context c)] ++ find_calls c diff))
| branch_undiffable (expected : list byte) :
    not_exist w (Config.Directory c) = false ->
    stored w c t = Some expected ->
    expected <> b ->
    update_mode w = false ->
    Config.Diffable c = false ->
    Assert_branch c t b w
      (Run (Fatal (msg_undiffable t)) w
           [CallStat (Config.Directory c); CallReadFile (snapPath c t);
            CallLookupEnv "UPDATE_SNAPSHOTS"]).

(** From [w] to [w'] nothing but the file system has changed. *)
Definition same_process (w w' : world) : Prop :=
  cwd w' = cwd w /\ env w' = env w /\
  write_fault w' = write_fault w /\ close_fault w' = close_fault w.

(** From [w] to [w'] the file system has only got new directories. *)
Definition adds_dirs (w w' : world) : Prop :=
  same_process w w' /\
  forall k, fs w' !! k = fs w !! k \/ (fs w !! k = None /\ fs w' !! k = Some Dir).

(** From [w] to [w'] the file system has only got new directories, and
    the file that the path [p] leads to in [w'] may be new or rewritten,
    with the first bytes of [b]; every other entry is as it was. *)
Definition same_but (w w' : world) (p : string) (b : list byte) : Prop :=
  same_process w w' /\
  forall k, fs w' !! k = fs w !! k \/
            (fs w !! k = None /\ fs w' !! k = Some Dir) \/
            (fs w !! k <> Some Dir /\
             exists n, fs w' !! k = Some (File (take n b)) /\
                       locate w' p = Found k (File (take n b))).

(** *** The configuration that [New] builds, option kind by option kind *)

Definition last_directory (specs : list option_spec) (d : string) : string :=
  fold_left (fun acc o => match o with OptSnapDirectory x => x | _ => acc end) specs d.

Definition last_diffable (specs : list option_spec) (d : bool) : bool :=
  fold_left (fun acc o => match o with OptDiffable x => x | _ => acc end) specs d.

Definition last_extension (specs : list option_spec) (d : string) : string :=
  fold_left (fun acc o => match o with OptSnapExtension x => x | _ => acc end) specs d.

Definition context_from (specs : list option_spec) (d : Z) : Z :=
  fold_left (fun acc o => match o with OptContextLines n => n | _ => acc end) specs d.

(** The compiled pattern of the last [IgnoreRegex]. *)
Definition last_ignore (specs : list option_spec) (d : option Regexp) : option Regexp :=
  fold_left (fun acc o =>
               match o with
               | OptIgnoreRegex r =>
                   match regexp_Compile r with
                   | OK re => Some re
                   | Err _ => acc
                   end
               | _ => acc
               end) specs d.

(** The error of the first [IgnoreRegex] whose pattern does not compile. *)
Fixpoint first_bad (specs : list option_spec) : option error :=
  match specs with
  | [] => None
  | OptIgnoreRegex r :: rest =>
      match regexp_Compile r with
      | Err err => Some err
      | OK _ => first_bad rest
      end
  | _ :: rest => first_bad rest
  end.

Definition configured (specs : list option_spec) (c : Config) : Config :=
  Config.mk (last_directory specs (Config.Directory c))
            (context_from specs (Config.Context c))
            (last_diffable specs (Config.Diffable c))
            (last_extension specs (Config.Extension c))
            (last_ignore specs (Config.ignore c)).

(** The configuration before any option. *)
Definition default_config (wd : string) : Config :=
  Config.mk (path_Join wd "__snapshots__") 10 true ".snap" None.

(** The byte of a file name for a byte of an ASCII test name. *)
Definition normal (c : ascii) : ascii := dashed (lower_byte c).

End Branches.

(** ** Cleaned paths in the file system *)

Section Cleaning.

(** The entry that the elements which [path.Clean] has written so far,
    the last one first, lead to from [start]. *)
Fixpoint stack_at (start stack : list string) : list string :=
  match stack with
  | [] => start
  | top :: rest =>
      if decide (top = "..") then parent (stack_at start rest)
      else stack_at start rest ++ [top]
  end.

(** Every element written so far is a name that the file system can hold
    or [..], and leaves a directory that is there. *)
Fixpoint stack_ok (w : world) (start stack : list string) : Prop :=
  match stack with
  | [] => True
  | top :: rest =>
      stack_ok w start rest /\
      node_at w (stack_at start rest) = Some Dir /\
      (top <> ".." -> top <> "" /\ top <> "." /\ (String.length top <= NAME_MAX)%nat)
  end.

(** The entry of the name [f] in the directory of key [kd]. *)
Definition entry (w : world) (kd : list string) (f : string) : located :=
  match fs w !! (kd ++ [f]) with
  | Some n => Found (kd ++ [f]) n
  | None => Absent (kd ++ [f])
  end.

(** A path that the kernel takes: without zero byte and shorter than
    [PATH_MAX]. *)
Definition fits (p : string) : Prop :=
  has_byte "000" p = false /\ (String.length p < PATH_MAX)%nat.

End Cleaning.

(** ** Assertions in a row *)

Section Sequences.
Context {L : Libraries}.

(** The world after the same assertion has run [n] times in a row. *)
Fixpoint repeated (n : nat) (c : Config) (t : TB) (b : list byte) (w : world) : world :=
  match n with
  | O => w
  | S n' => repeated n' c t b (final (Config_Assert c t b w))
  end.

(** The bytes that the package-level [Assert] compares. *)
Definition serialized (x : any value) : list byte :=
  match x with
  | Bytes b => b
  | Other v => spew_Fdump v
  end.

(** A run with the call to [os.Getwd] of [New] in front. *)
Definition after_Getwd {X} (r : run X) : run X :=
  Run (out r) (final r) (CallGetwd :: trace r).

(** A call that creates or changes something in the file system. *)
Definition is_write_call (x : call) : bool :=
  match x with
  | CallMkdirAll _ | CallCreate _ | CallWrite _ _ => true
  | _ => false
  end.

End Sequences.

(** ** More concrete worlds *)

(** [demo_world] with a directory where the snapshot of [TestDir] would
    be. *)
Definition demo_world_occupied : world :=
  set_fs demo_world
         (<[ ["w"; "__snapshots__"; "testdir.snap"] := Dir ]> (fs demo_world)).

(** [demo_world] seen from a working directory that is gone. *)
Definition demo_world_lost : world :=
  World (fs demo_world) ["gone"] (env demo_world) None None.

(** [demo_world] in update mode. *)
Definition demo_world_update : world := Setenv "UPDATE_SNAPSHOTS" "" demo_world.


(** [demo_world] in update mode on a device that is full: a write takes
    no byte. *)
Definition demo_world_full : world :=
  World (fs demo_world) (cwd demo_world) (env demo_world_update)
        (Some (0%nat, ENOSPC)) None.

(** A test name of 300 bytes. *)
Definition long_name : string := string_of_list_ascii (repeat "a"%char 300).


(** * Properties *)

(** ** Strings and paths *)

Lemma append_cons (c : ascii) (a b : string) :
  String c a +:+ b = String c (a +:+ b).
Proof. reflexivity. Qed.

Lemma append_nil_l (b : string) : "" +:+ b = b.
Proof. reflexivity. Qed.

Lemma length_append (a b : string) :
  String.length (a +:+ b) = String.length a + String.length b.
Proof.
  induction a as [|x a IH]; [done |].
  rewrite append_cons. simpl. by rewrite IH.
Qed.

Lemma has_byte_append (c : ascii) (a b : string) :
  has_byte c (a +:+ b) = has_byte c a || has_byte c b.
Proof.
  induction a as [|x a IH]; [done |].
  rewrite append_cons. simpl. by destruct (decide (c = x)).
Qed.

Lemma has_byte_map (f : ascii -> ascii) (c : ascii) (s : string) :
  (forall x, f x <> c) -> has_byte c (map_bytes f s) = false.
Proof.
  intros Hf. induction s as [|x s IH]; simpl; [done |].
  destruct (decide (c = f x)) as [->|_]; [by destruct (Hf x) | done].
Qed.

Lemma map_bytes_ext (f g : ascii -> ascii) (s : string) :
  (forall c, f c = g c) -> map_bytes f s = map_bytes g s.
Proof. intros E. induction s as [|c s IH]; simpl; [done | by rewrite E, IH]. Qed.

Lemma split_slash_nonempty (s : string) : split_slash s <> [].
Proof.
  induction s as [|c s IH]; simpl; [done |].
  destruct (decide (c = "/"%char)); [done |].
  by destruct (split_slash s).
Qed.

Lemma split_slash_append (a b : string) :
  split_slash (a +:+ "/" +:+ b) = split_slash a ++ split_slash b.
Proof.
  induction a as [|c a IH]; [done |].
  rewrite append_cons. simpl.
  destruct (decide (c = "/"%char)); rewrite IH; [done |].
  pose proof (split_slash_nonempty a).
  by destruct (split_slash a).
Qed.

Lemma split_slash_one (f : string) :
  has_byte "/" f = false -> split_slash f = [f].
Proof.
  induction f as [|c f IH]; simpl; [done |].
  destruct (decide ("/"%char = c)) as [|Hc]; [done |].
  intros H. destruct (decide (c = "/"%char)); [congruence |].
  by rewrite (IH H).
Qed.

Lemma simple_name_spec (f : string) :
  simple_name f = true <-> is_name f /\ has_byte "/" f = false.
Proof.
  unfold simple_name, is_name.
  rewrite !andb_true_iff, !negb_true_iff, !bool_decide_eq_false. tauto.
Qed.

Lemma clean_elems_snoc (root : bool) (f : string) (es stack : list string) :
  is_name f ->
  clean_elems root stack (es ++ [f]) = clean_elems root stack es ++ [f].
Proof.
  intros (H1 & H2 & H3). revert stack.
  induction es as [|e es IH]; intros stack; simpl.
  - by repeat case_decide.
  - repeat case_decide; try apply IH.
    destruct stack as [|top rest]; [destruct root; apply IH |].
    case_decide; apply IH.
Qed.

Lemma walk_app (es es' cur : list string) :
  walk cur (es ++ es') = walk (walk cur es) es'.
Proof.
  revert cur. induction es as [|e es IH]; intros cur; simpl; [done |].
  repeat case_decide; apply IH.
Qed.

Lemma walk_name (cur : list string) (f : string) :
  is_name f -> walk cur [f] = f :: cur.
Proof. intros (H1 & H2 & H3). simpl. by repeat case_decide. Qed.

(** Cleaning a path does not change where it leads: the walk over the
    cleaned elements ends where the walk over the elements ends. *)
Lemma walk_clean_elems (root : bool) (cur es stack : list string) :
  Forall (fun e => e <> "" /\ e <> ".") stack ->
  (root = true -> cur = []) ->
  walk cur (clean_elems root stack es) = walk (walk cur (rev stack)) es.
Proof.
  intros Hst Hroot. revert stack Hst.
  induction es as [|e es IH]; intros stack Hst; simpl; [done |].
  destruct (decide (e = "")) as [|He1]; [by apply IH |].
  destruct (decide (e = ".")) as [|He2]; [by apply IH |].
  destruct (decide (e = "..")) as [->|He3].
  - destruct stack as [|top rest].
    + destruct root.
      * rewrite IH by done. simpl. by rewrite (Hroot eq_refl).
      * rewrite IH by (by repeat constructor). done.
    + destruct (decide (top = "..")) as [->|Htop].
      * rewrite IH by (by constructor). simpl. by rewrite walk_app.
      * inversion Hst as [|? ? [Ht1 Ht2] Hrest]; subst.
        rewrite IH by done. simpl. rewrite walk_app.
        by rewrite walk_name.
  - rewrite IH by (by constructor). simpl. rewrite walk_app.
    by rewrite walk_name.
Qed.

Lemma split_slash_no_slash (s : string) :
  Forall (fun e => has_byte "/" e = false) (split_slash s).
Proof.
  induction s as [|c s IH]; simpl; [by repeat constructor |].
  destruct (decide (c = "/"%char)) as [|Hc]; [by constructor |].
  destruct (split_slash s) as [|f fs]; simpl.
  - repeat constructor. simpl. by destruct (decide ("/"%char = c)).
  - inversion IH; subst. constructor; [|done].
    simpl. by destruct (decide ("/"%char = c)).
Qed.

Lemma clean_elems_elems (root : bool) (es stack : list string) :
  Forall (fun e => has_byte "/" e = false) es ->
  Forall is_elem stack ->
  Forall is_elem (clean_elems root stack es).
Proof.
  intros Hes. revert stack.
  induction Hes as [|e es He Hes IH]; intros stack Hst; simpl.
  - by apply Forall_rev.
  - repeat case_decide; try (by apply IH).
    + destruct stack as [|top rest].
      * destruct root; apply IH; [done |]. by repeat constructor.
      * case_decide; apply IH; [by constructor |]. by inversion Hst.
    + apply IH. by constructor.
Qed.

Lemma split_join_slash (es : list string) :
  es <> [] -> Forall is_elem es -> split_slash (join_slash es) = es.
Proof.
  induction es as [|e es IH]; [done |]. intros _ Hes.
  inversion Hes as [|? ? [He1 He2] Hes']; subst.
  destruct es as [|e' es].
  - by apply split_slash_one.
  - change (join_slash (e :: e' :: es)) with (e +:+ "/" +:+ join_slash (e' :: es)).
    rewrite split_slash_append, IH, split_slash_one; done.
Qed.

Lemma rooted_append (a b : string) : a <> "" -> rooted (a +:+ b) = rooted a.
Proof. by destruct a. Qed.

Lemma rooted_join_slash (e : string) (es : list string) :
  is_elem e -> rooted (join_slash (e :: es)) = false.
Proof.
  intros [He1 He2]. destruct e as [|c e]; [done |].
  simpl in He2. destruct (decide ("/"%char = c)) as [|Hc]; [done |].
  assert (rooted (String c e) = false) as Hr.
  { simpl. destruct c as [[] [] [] [] [] [] [] []]; done. }
  destruct es; [done |].
  change (join_slash (String c e :: s :: es))
    with (String c e +:+ "/" +:+ join_slash (s :: es)).
  by rewrite rooted_append.
Qed.

Lemma split_slash_rooted (s : string) :
  split_slash (String "/" s) = "" :: split_slash s.
Proof. simpl. by destruct (decide ("/"%char = "/"%char)). Qed.

Lemma render_snoc (root : bool) (es cur : list string) (f : string) :
  Forall is_elem es -> is_elem f ->
  render root (es ++ [f]) <> "" /\
  rooted (render root (es ++ [f])) = root /\
  walk cur (split_slash (render root (es ++ [f]))) = walk cur (es ++ [f]).
Proof.
  intros Hes Hf.
  assert (Forall is_elem (es ++ [f])) as Hall.
  { apply Forall_app. split; [done | by constructor]. }
  assert (es ++ [f] <> []) as Hne by (by destruct es).
  destruct (es ++ [f]) as [|e l] eqn:E; [done |].
  inversion Hall as [|? ? He Hl]; subst.
  unfold render. destruct root.
  - change ("/" +:+ join_slash (e :: l)) with (String "/" (join_slash (e :: l))).
    split; [done |]. split; [done |].
    rewrite split_slash_rooted, split_join_slash by done.
    simpl. by destruct (decide ("" = "")).
  - rewrite append_nil_l. split.
    + destruct He as [He _]. destruct e; [done |]. by destruct l.
    + split; [by apply rooted_join_slash |].
      by rewrite split_join_slash.
Qed.

(** Joining a directory and a file name leads to the entry of that name in
    the directory. *)
Lemma resolve_path_Join (w : world) (d f : string) :
  d <> "" -> simple_name f = true ->
  resolve w (path_Join d f) = (fun k => k ++ [f]) <$> resolve w d.
Proof.
  intros Hd Hf. apply simple_name_spec in Hf as [Hname Hslash].
  assert (is_elem f) as Helem by (split; [apply Hname | done]).
  unfold path_Join, path_Clean.
  destruct (decide (d = "")) as [|_]; [done |].
  destruct (decide (d +:+ "/" +:+ f = "")) as [E|_]; [by destruct d |].
  rewrite rooted_append by done.
  rewrite split_slash_append, (split_slash_one f) by done.
  rewrite clean_elems_snoc by done.
  set (C := clean_elems (rooted d) [] (split_slash d)).
  assert (Forall is_elem C) as HC.
  { apply clean_elems_elems; [apply split_slash_no_slash | constructor]. }
  set (start := if rooted d then [] else rev (cwd w)).
  destruct (render_snoc (rooted d) C start f HC Helem) as (Hne & Hr & Hw).
  destruct (decide (render (rooted d) (C ++ [f]) = "")) as [|_]; [done |].
  unfold resolve.
  destruct (decide (render (rooted d) (C ++ [f]) = "")) as [|_]; [done |].
  destruct (decide (d = "")) as [|_]; [done |].
  rewrite Hr. fold start. rewrite Hw, walk_app, walk_name by done.
  unfold C. rewrite walk_clean_elems; [done | constructor |].
  unfold start. by intros ->.
Qed.

(** ** The file system *)

Lemma node_at_set_fs (w : world) (m : gmap (list string) node) (k : list string) :
  k <> [] -> node_at (set_fs w m) k = m !! k.
Proof. by destruct k. Qed.

Lemma node_at_fs (w : world) (k : list string) :
  k <> [] -> node_at w k = fs w !! k.
Proof. by destruct k. Qed.

Lemma resolve_set_fs (w : world) (m : gmap (list string) node) (p : string) :
  resolve (set_fs w m) p = resolve w p.
Proof. done. Qed.


(** *** Looking up a path *)

Lemma seek_found (w : world) (cur es k : list string) (n : node) :
  seek w cur es = Found k n -> node_at w k = Some n.
Proof.
  revert cur. induction es as [|e es IH]; intros cur; cbn [seek].
  - destruct (node_at w cur) eqn:E; [|done]. by intros [= <- <-].
  - destruct (node_at w cur) as [[|?]|]; [|done|done].
    repeat case_decide; try apply IH.
    destruct (NAME_MAX <? String.length e)%nat; [done | apply IH].
Qed.

Lemma seek_absent (w : world) (cur es k : list string) :
  seek w cur es = Absent k -> node_at w k = None.
Proof.
  revert cur. induction es as [|e es IH]; intros cur; cbn [seek].
  - destruct (node_at w cur) eqn:E; [done |]. by intros [= <-].
  - destruct (node_at w cur) as [[|?]|]; [|done|done].
    repeat case_decide; try apply IH.
    destruct (NAME_MAX <? String.length e)%nat; [done | apply IH].
Qed.

Lemma seek_app (w : world) (cur a b : list string) :
  seek w cur (a ++ b) =
  match seek w cur a with
  | Found k _ | Absent k => seek w k b
  | Failed e => Failed e
  end.
Proof.
  revert cur. induction a as [|e a IH]; intros cur; cbn [app seek].
  - by destruct (node_at w cur).
  - destruct (node_at w cur) as [[|?]|]; [|done|done].
    repeat case_decide; try apply IH.
    destruct (NAME_MAX <? String.length e)%nat; [done | apply IH].
Qed.


Lemma locate_found (w : world) (p : string) (k : list string) (n : node) :
  locate w p = Found k n -> node_at w k = Some n.
Proof.
  unfold locate. repeat case_decide; try done.
  destruct (has_byte _ p); [done |].
  destruct (PATH_MAX <=? String.length p)%nat; [done |]. apply seek_found.
Qed.

Lemma locate_absent (w : world) (p : string) (k : list string) :
  locate w p = Absent k -> node_at w k = None.
Proof.
  unfold locate. repeat case_decide; try done.
  destruct (has_byte _ p); [done |].
  destruct (PATH_MAX <=? String.length p)%nat; [done |]. apply seek_absent.
Qed.




(** Where a path leads depends on the file system and on the working
    directory only. *)
Lemma seek_same_fs (w w' : world) (cur es : list string) :
  fs w' = fs w -> seek w' cur es = seek w cur es.
Proof.
  intros Hfs.
  assert (forall k, node_at w' k = node_at w k) as Hnode.
  { intros [|x k]; [done |]. simpl. by rewrite Hfs. }
  revert cur. induction es as [|e es IH]; intros cur; cbn [seek]; rewrite Hnode; [done |].
  destruct (node_at w cur) as [[|?]|]; [|done|done].
  repeat case_decide; try apply IH.
  destruct (NAME_MAX <? String.length e)%nat; [done | apply IH].
Qed.

Lemma locate_same_fs (w w' : world) (p : string) :
  fs w' = fs w -> cwd w' = cwd w -> locate w' p = locate w p.
Proof.
  intros Hfs Hcwd. unfold locate. rewrite Hcwd. case_decide; [done |].
  destruct (has_byte _ p); [done |].
  destruct (PATH_MAX <=? String.length p)%nat; [done |].
  by apply seek_same_fs.
Qed.

Lemma locate_Setenv (k v : string) (w : world) (p : string) :
  locate (Setenv k v w) p = locate w p.
Proof. by apply locate_same_fs. Qed.

Lemma locate_Unsetenv (k : string) (w : world) (p : string) :
  locate (Unsetenv k w) p = locate w p.
Proof. by apply locate_same_fs. Qed.

Lemma not_exist_Setenv (k v : string) (w : world) (p : string) :
  not_exist (Setenv k v w) p = not_exist w p.
Proof. unfold not_exist, lookup_node. by rewrite locate_Setenv. Qed.

Lemma file_at_Setenv (k v : string) (w : world) (p : string) :
  file_at (Setenv k v w) p = file_at w p.
Proof. unfold file_at. by rewrite locate_Setenv. Qed.

(** *** A file system with one more file *)

Lemma node_at_with_file (w : world) (k a : list string) (data : list byte) :
  k <> [] ->
  node_at (with_file w k data) a = if decide (a = k) then Some (File data) else node_at w a.
Proof.
  intros Hk. destruct a as [|x a].
  - by rewrite decide_False.
  - unfold with_file. rewrite node_at_set_fs by done. case_decide as E.
    + rewrite E. apply lookup_insert_eq.
    + by rewrite lookup_insert_ne.
Qed.

Lemma not_dir_key (w : world) (k : list string) : node_at w k <> Some Dir -> k <> [].
Proof. by intros H ->. Qed.

(** Writing a file does not change where the paths lead, but for the
    paths that lead to the file; a path that went through the free name
    of the file as through a directory now fails on a file. *)
Lemma seek_with_file (w : world) (k : list string) (data : list byte)
    (cur es : list string) :
  node_at w k <> Some Dir ->
  match seek w cur es with
  | Found k' n =>
      seek (with_file w k data) cur es =
        Found k' (if decide (k' = k) then File data else n)
  | Absent k' =>
      seek (with_file w k data) cur es =
        if decide (k' = k) then Found k (File data) else Absent k'
  | Failed e =>
      seek (with_file w k data) cur es = Failed e \/
      (e = ENOENT /\ seek (with_file w k data) cur es = Failed ENOTDIR)
  end.
Proof.
  intros Hk. pose proof (not_dir_key _ _ Hk) as Hne.
  revert cur. induction es as [|e es IH]; intros cur; cbn [seek];
    rewrite node_at_with_file by done.
  - destruct (decide (cur = k)) as [->|Hcur].
    + destruct (node_at w k); by rewrite decide_True.
    + destruct (node_at w cur); by rewrite decide_False.
  - destruct (decide (cur = k)) as [->|Hcur].
    + destruct (node_at w k) as [[|old]|]; [done | by left | by right].
    + destruct (node_at w cur) as [[|?]|]; [| by left | by left].
      repeat case_decide; try apply IH.
      destruct (NAME_MAX <? String.length e)%nat; [by left | apply IH].
Qed.

Lemma locate_with_file (w : world) (k : list string) (data : list byte) (p : string) :
  node_at w k <> Some Dir ->
  match locate w p with
  | Found k' n =>
      locate (with_file w k data) p =
        Found k' (if decide (k' = k) then File data else n)
  | Absent k' =>
      locate (with_file w k data) p =
        if decide (k' = k) then Found k (File data) else Absent k'
  | Failed e =>
      locate (with_file w k data) p = Failed e \/
      (e = ENOENT /\ locate (with_file w k data) p = Failed ENOTDIR)
  end.
Proof.
  intros Hk. unfold locate. case_decide; [by left |].
  destruct (has_byte _ p); [by left |].
  destruct (PATH_MAX <=? String.length p)%nat; [by left |].
  by apply seek_with_file.
Qed.

Lemma creatable_node (w : world) (p : string) (k : list string) :
  creatable w p k -> node_at w k <> Some Dir.
Proof.
  intros [H|[old H]].
  - apply locate_absent in H. congruence.
  - apply locate_found in H. congruence.
Qed.

Lemma locate_created (w : world) (p : string) (k : list string) (data : list byte) :
  creatable w p k -> locate (with_file w k data) p = Found k (File data).
Proof.
  intros Hc. pose proof (locate_with_file w k data p (creatable_node _ _ _ Hc)) as H.
  destruct Hc as [E|[old E]]; rewrite E in H; by rewrite decide_True in H.
Qed.

Lemma file_at_created (w : world) (p : string) (k : list string) (data : list byte) :
  creatable w p k -> file_at (with_file w k data) p = Some data.
Proof. intros Hc. unfold file_at. by rewrite (locate_created _ _ _ _ Hc). Qed.

Lemma with_file_twice (w : world) (k : list string) (d1 d2 : list byte) :
  with_file (with_file w k d1) k d2 = with_file w k d2.
Proof. unfold with_file, set_fs. cbn. by rewrite insert_insert_eq. Qed.

Lemma creatable_created (w : world) (p : string) (k : list string) (data : list byte) :
  creatable w p k -> creatable (with_file w k data) p k.
Proof. intros Hc. right. exists data. by apply locate_created. Qed.

Lemma not_exist_with_file (w : world) (k : list string) (data : list byte) (p : string) :
  node_at w k <> Some Dir ->
  not_exist w p = false -> not_exist (with_file w k data) p = false.
Proof.
  intros Hk. pose proof (locate_with_file w k data p Hk) as H.
  unfold not_exist, lookup_node.
  destruct (locate w p) as [k' n|k'|e]; [by rewrite H | done |].
  destruct H as [->|[-> _]]; done.
Qed.

Lemma is_dir_with_file (w : world) (k : list string) (data : list byte) (p : string) :
  node_at w k <> Some Dir ->
  is_dir w p -> is_dir (with_file w k data) p.
Proof.
  intros Hk [kd Hd]. pose proof (locate_with_file w k data p Hk) as H.
  rewrite Hd in H. exists kd. rewrite H, decide_False; [done |].
  intros ->. apply locate_found in Hd. congruence.
Qed.

Lemma is_dir_exists (w : world) (p : string) :
  is_dir w p -> not_exist w p = false.
Proof. intros (k & Hk). unfold not_exist, lookup_node. by rewrite Hk. Qed.

Lemma file_at_exists (w : world) (p : string) (data : list byte) :
  file_at w p = Some data -> exists k, locate w p = Found k (File data).
Proof.
  unfold file_at. destruct (locate w p) as [k [|d]| |]; try done.
  intros [= ->]. by exists k.
Qed.

(** *** New directories *)

Lemma same_process_refl (w : world) : same_process w w.
Proof. done. Qed.

Lemma same_process_trans (w1 w2 w3 : world) :
  same_process w1 w2 -> same_process w2 w3 -> same_process w1 w3.
Proof.
  intros (? & ? & ? & ?) (? & ? & ? & ?). repeat split; congruence.
Qed.

Lemma adds_dirs_refl (w : world) : adds_dirs w w.
Proof. split; [done |]. by left. Qed.

Lemma adds_dirs_trans (w1 w2 w3 : world) :
  adds_dirs w1 w2 -> adds_dirs w2 w3 -> adds_dirs w1 w3.
Proof.
  intros [Hp1 H1] [Hp2 H2]. split; [by eapply same_process_trans |].
  intros k. destruct (H1 k) as [E1|[E1 E1']], (H2 k) as [E2|[E2 E2']].
  - left. congruence.
  - right. split; congruence.
  - right. split; congruence.
  - congruence.
Qed.

Lemma locate_new_absent (w : world) (p : string) (k : list string) :
  locate_new w p = Absent k -> node_at w k = None.
Proof.
  unfold locate_new. case_decide; [done |].
  destruct (has_byte _ p); [done |].
  destruct (PATH_MAX <=? String.length p)%nat; [done |]. apply seek_absent.
Qed.



Lemma mkdir_adds_dirs (w : world) (p : string) (e : option error) (w1 : world) :
  mkdir w p = (e, w1) -> adds_dirs w w1.
Proof.
  unfold mkdir. destruct (locate_new w p) as [k n|k|err] eqn:E;
    intros [= <- <-]; try apply adds_dirs_refl.
  apply locate_new_absent in E.
  assert (k <> []) as Hne by (by intros ->).
  rewrite node_at_fs in E by done.
  split; [done |]. intros a. cbn [fs set_fs].
  destruct (decide (a = k)) as [->|Ha].
  - right. by rewrite lookup_insert_eq.
  - left. by rewrite lookup_insert_ne.
Qed.


Lemma mkdir_rec_adds_dirs (whole : bool) (re : list string) (w : world)
    (e : option error) (w1 : world) :
  mkdir_rec whole re w = (e, w1) -> adds_dirs w w1.
Proof.
  revert whole w e w1. induction re as [|x re IH]; intros whole w e w1.
  - intros [= <- <-]. apply adds_dirs_refl.
  - cbn [mkdir_rec]. cbv zeta.
    set (parents := fun w : world =>
           if decide (x = "") then mkdir_rec false re w
           else if decide (join_slash (rev re) = "") then (None, w)
                else mkdir_rec true re w).
    assert (forall w e w1, parents w = (e, w1) -> adds_dirs w w1) as Hp.
    { intros w0 e0 w2. unfold parents. repeat case_decide.
      - apply IH.
      - intros [= <- <-]. apply adds_dirs_refl.
      - apply IH. }
    destruct whole; [| apply Hp].
    destruct (lookup_node w "stat" _) as [[|?]|].
    + intros [= <- <-]. apply adds_dirs_refl.
    + intros [= <- <-]. apply adds_dirs_refl.
    + fold (parents w). destruct (parents w) as [[err|] w2] eqn:E2.
      * intros [= <- <-]. by eapply Hp.
      * destruct (mkdir w2 _) as [[err|] w3] eqn:E3.
        -- assert (adds_dirs w w3) as H3.
           { eapply adds_dirs_trans; [by eapply Hp | by eapply mkdir_adds_dirs]. }
           destruct (lookup_node w3 "lstat" _) as [[|?]|]; by intros [= <- <-].
        -- intros [= <- <-].
           eapply adds_dirs_trans; [by eapply Hp | by eapply mkdir_adds_dirs].
Qed.

Lemma MkdirAll_adds_dirs (w : world) (p : string) (e : option error) (w1 : world) :
  MkdirAll w p = (e, w1) -> adds_dirs w w1.
Proof. apply mkdir_rec_adds_dirs. Qed.


(** [os.MkdirAll] of the empty path fails, and makes nothing. *)
Lemma MkdirAll_empty (w : world) :
  MkdirAll w "" = (Some (PathError "mkdir" "" ENOENT), w).
Proof. done. Qed.

(** *** Cleaned paths

    [path.Join] cleans the path it builds, by its text, and the kernel
    then walks the cleaned path. Where the kernel's walk of a path ends at
    a node, its walk of the cleaned path ends at the same node. *)

Lemma seek_stack (w : world) (start stack rest : list string) :
  stack_ok w start stack ->
  seek w start (rev stack ++ rest) = seek w (stack_at start stack) rest.
Proof.
  revert rest. induction stack as [|top st IH]; intros rest Hok; [done |].
  destruct Hok as (Hok & Hdir & Htop). cbn [rev stack_at].
  rewrite <- app_assoc. cbn [app]. rewrite IH by done. cbn [seek]. rewrite Hdir.
  destruct (decide (top = "..")) as [->|Hne].
  - by rewrite !decide_False by done.
  - destruct (Htop Hne) as (H1 & H2 & H3). rewrite !decide_False by done.
    destruct (NAME_MAX <? String.length top)%nat eqn:E; [|done].
    apply Nat.ltb_lt in E. lia.
Qed.

Lemma seek_clean_elems (w : world) (root : bool) (start es stack k : list string)
    (n : node) :
  (root = true -> start = []) ->
  stack_ok w start stack ->
  seek w (stack_at start stack) es = Found k n ->
  seek w start (clean_elems root stack es) = Found k n.
Proof.
  intros Hroot. revert stack. induction es as [|e es IH]; intros stack Hok H.
  - cbn [clean_elems]. rewrite <- (app_nil_r (rev stack)). by rewrite seek_stack.
  - cbn [seek] in H.
    destruct (node_at w (stack_at start stack)) as [[|?]|] eqn:Hnode; [|done|done].
    cbn [clean_elems].
    destruct (decide (e = "")) as [|He1]; [by apply IH |].
    destruct (decide (e = ".")) as [|He2]; [by apply IH |].
    destruct (decide (e = "..")) as [->|He3].
    + destruct stack as [|top rest].
      * cbn [stack_at] in *. destruct root.
        -- apply IH; [done |]. cbn [stack_at].
           rewrite (Hroot eq_refl) in H |- *. exact H.
        -- apply IH; [cbn [stack_ok stack_at]; split; [done |]; split; [done |]; by intros [] |]. cbn [stack_at].
           by rewrite decide_True.
      * destruct (decide (top = "..")) as [->|Htop].
        -- apply IH; [cbn [stack_ok]; split; [done |]; split; [done |]; by intros [] |].
           change (stack_at start (".." :: ".." :: rest))
             with (parent (stack_at start (".." :: rest))). exact H.
        -- apply IH; [by destruct Hok |]. cbn [stack_at] in H.
           rewrite decide_False in H by done. unfold parent in H.
           by rewrite removelast_last in H.
    + destruct (NAME_MAX <? String.length e)%nat eqn:E; [done |].
      apply Nat.ltb_ge in E. apply IH.
      * cbn [stack_ok]. split; [done |]. split; [done |]. by intros _.
      * cbn [stack_at]. by rewrite decide_False.
Qed.

Lemma split_slash_render (root : bool) (es : list string) :
  es <> [] -> Forall is_elem es ->
  render root es <> "" /\
  rooted (render root es) = root /\
  split_slash (render root es) = if root then "" :: es else es.
Proof.
  intros Hne Hall. destruct es as [|e l]; [done |].
  inversion Hall as [|? ? He Hl]; subst.
  unfold render. destruct root.
  - change ("/" +:+ join_slash (e :: l)) with (String "/" (join_slash (e :: l))).
    split; [done |]. split; [done |].
    by rewrite split_slash_rooted, split_join_slash.
  - rewrite append_nil_l. split.
    + destruct He as [He _]. destruct e; [done |]. by destruct l.
    + split; [by apply rooted_join_slash |]. by rewrite split_join_slash.
Qed.

Lemma locate_render (w : world) (root : bool) (es : list string) :
  es <> [] -> Forall is_elem es -> fits (render root es) ->
  locate w (render root es) = seek w (if root then [] else cwd w) es.
Proof.
  intros Hne Hall [Hnul Hlen].
  destruct (split_slash_render root es Hne Hall) as (Hr1 & Hr2 & Hr3).
  unfold locate. rewrite decide_False by done. rewrite Hnul.
  destruct (PATH_MAX <=? String.length (render root es))%nat eqn:E.
  { apply Nat.leb_le in E. lia. }
  rewrite Hr2, Hr3. destruct root; [|done].
  cbn [seek node_at]. by rewrite decide_True.
Qed.

Lemma path_Join_render (d f : string) :
  d <> "" -> simple_name f = true ->
  let C := clean_elems (rooted d) [] (split_slash d) in
  path_Join d f = render (rooted d) (C ++ [f]) /\ Forall is_elem (C ++ [f]).
Proof.
  intros Hd Hf. apply simple_name_spec in Hf as [Hname Hslash].
  assert (is_elem f) as Helem by (split; [apply Hname | done]).
  cbv zeta. unfold path_Join, path_Clean.
  destruct (decide (d = "")) as [|_]; [done |].
  destruct (decide (d +:+ "/" +:+ f = "")) as [E|_]; [by destruct d |].
  rewrite rooted_append by done.
  rewrite split_slash_append, (split_slash_one f) by done.
  rewrite clean_elems_snoc by done.
  set (C := clean_elems (rooted d) [] (split_slash d)).
  assert (Forall is_elem C) as HC.
  { apply clean_elems_elems; [apply split_slash_no_slash | constructor]. }
  assert (Forall is_elem (C ++ [f])) as Hall.
  { apply Forall_app. split; [done | by constructor]. }
  destruct (split_slash_render (rooted d) (C ++ [f])) as (Hne & _ & _);
    [by destruct C | done |].
  by destruct (decide (render (rooted d) (C ++ [f]) = "")).
Qed.

(** The path that [path.Join] builds from a path that leads to a node and
    from a file name leads to the entry of that name below the node. *)
Lemma locate_path_Join (w : world) (d f : string) (kd : list string) (n : node) :
  locate w d = Found kd n -> simple_name f = true -> fits (path_Join d f) ->
  locate w (path_Join d f) = seek w kd [f].
Proof.
  intros Hd Hf Hfits.
  assert (d <> "") as Hne by (by intros ->).
  destruct (path_Join_render d f Hne Hf) as [E Hall]. rewrite E in Hfits |- *.
  set (C := clean_elems (rooted d) [] (split_slash d)) in *.
  rewrite locate_render by (try done; by destruct C).
  rewrite seek_app.
  assert (seek w (if rooted d then [] else cwd w) C = Found kd n) as ->; [|done].
  apply (seek_clean_elems w (rooted d) _ _ []); [by destruct (rooted d) | done |].
  unfold locate in Hd. rewrite decide_False in Hd by done.
  destruct (has_byte _ d); [done |].
  by destruct (PATH_MAX <=? String.length d)%nat.
Qed.

Lemma seek_entry (w : world) (kd : list string) (f : string) :
  node_at w kd = Some Dir -> simple_name f = true ->
  (String.length f <= NAME_MAX)%nat ->
  seek w kd [f] = entry w kd f.
Proof.
  intros Hkd Hf Hlen. apply simple_name_spec in Hf as [(H1 & H2 & H3) _].
  cbn [seek]. rewrite Hkd, !decide_False by done.
  destruct (NAME_MAX <? String.length f)%nat eqn:E.
  { apply Nat.ltb_lt in E. lia. }
  unfold entry. rewrite node_at_fs by (by destruct kd).
  by destruct (fs w !! (kd ++ [f])).
Qed.

Lemma strip_slashes_snoc (l : list string) (f : string) :
  f <> "" -> strip_slashes (l ++ [f]) = l ++ [f].
Proof.
  intros Hf. unfold strip_slashes. rewrite rev_app_distr. cbn [rev app drop_empty].
  rewrite decide_False by done. cbn [rev]. by rewrite rev_involutive.
Qed.

(** A cleaned path has no slash at its end. *)
Lemma locate_new_path_Join (w : world) (d f : string) :
  d <> "" -> simple_name f = true ->
  locate_new w (path_Join d f) = locate w (path_Join d f).
Proof.
  intros Hd Hf. destruct (path_Join_render d f Hd Hf) as [E Hall]. rewrite E.
  set (C := clean_elems (rooted d) [] (split_slash d)) in *.
  destruct (split_slash_render (rooted d) (C ++ [f])) as (_ & _ & Hs);
    [by destruct C | done |].
  apply simple_name_spec in Hf as [(Hf & _) _].
  unfold locate_new, locate. rewrite Hs.
  destruct (rooted d).
  - change ("" :: C ++ [f]) with (("" :: C) ++ [f]). by rewrite strip_slashes_snoc.
  - by rewrite strip_slashes_snoc.
Qed.

(** Where the kernel finds a node, it is the entry that the text of the
    path names. *)
Lemma seek_walk (w : world) (cur es k : list string) (n : node) :
  seek w cur es = Found k n -> k = rev (walk (rev cur) es).
Proof.
  revert cur. induction es as [|e es IH]; intros cur; cbn [seek walk].
  - destruct (node_at w cur); [|done]. intros [= <- _]. by rewrite rev_involutive.
  - destruct (node_at w cur) as [[|?]|]; [|done|done].
    destruct (decide (e = "")); [apply IH |].
    destruct (decide (e = ".")); [apply IH |].
    destruct (decide (e = "..")).
    + intros H%IH. rewrite H. do 2 f_equal. unfold parent.
      destruct cur as [|x cur _] using rev_ind; [done |].
      by rewrite removelast_last, rev_unit.
    + destruct (NAME_MAX <? String.length e)%nat; [done |].
      intros H%IH. by rewrite rev_unit in H.
Qed.

Lemma locate_resolve (w : world) (p : string) (k : list string) (n : node) :
  locate w p = Found k n -> resolve w p = Some k.
Proof.
  unfold locate, resolve. case_decide; [done |].
  destruct (has_byte _ p); [done |].
  destruct (PATH_MAX <=? String.length p)%nat; [done |].
  intros Hs%seek_walk. rewrite Hs. by destruct (rooted p).
Qed.


(** ** Running test computations *)

Lemma bind_done {X Y} (m : Test X) (f : X -> Test Y) (w w' : world) (a : X) (tr : list call) :
  m w = Run (Done a) w' tr ->
  bind m f w = Run (out (f a w')) (final (f a w')) (tr ++ trace (f a w')).
Proof. intros H. unfold bind. by rewrite H. Qed.

Lemma os_Stat_run (p : string) (w : world) :
  os_Stat p w = Run (Done (lookup_node w "stat" p)) w [CallStat p].
Proof. done. Qed.

(** One step of a run: the result of the first call is known. *)
Ltac run_with lem :=
  erewrite bind_done by (eapply lem; eauto);
  cbv beta iota; cbn [out final trace].

(** The first two steps of [Config.Assert]. *)
Ltac enter c :=
  unfold Config_Assert;
  rewrite (bind_done (TB_Helper _) _ _ _ tt [] eq_refl);
  rewrite (bind_done _ _ _ _ _ _ (os_Stat_run (Config.Directory c) _));
  cbv beta iota; cbn [out final trace].

Section Runs.
Context {L : Libraries}.

Lemma isUpdateable_run (w : world) :
  isUpdateable w = Run (Done (update_mode w)) w [CallLookupEnv "UPDATE_SNAPSHOTS"].
Proof.
  unfold isUpdateable, update_mode, bind, os_LookupEnv, syscall. simpl.
  by destruct (env w !! "UPDATE_SNAPSHOTS") as [v|].
Qed.

Lemma ReadFile_some (p : string) (w : world) (data : list byte) :
  file_at w p = Some data ->
  ioutil_ReadFile p w = Run (Done (OK data)) w [CallReadFile p].
Proof.
  unfold file_at, ioutil_ReadFile, syscall, lookup_node. intros H.
  destruct (locate w p) as [k [|d]|k|e]; try done. by inversion H.
Qed.

Lemma ReadFile_none (p : string) (w : world) :
  file_at w p = None ->
  exists err, ioutil_ReadFile p w = Run (Done (Err err)) w [CallReadFile p].
Proof.
  unfold file_at, ioutil_ReadFile, syscall, lookup_node. intros H.
  destruct (locate w p) as [k [|d]|k|e]; try done; by eexists.
Qed.

Lemma getDiff_run (expected b : list byte) (context : Z) (w : world) :
  getDiff expected b context w =
  Run (Done (diff_text expected b context)) w
      [CallUnifiedDiff (difflib_SplitLines (string_of_list_byte expected))
                       (difflib_SplitLines (string_of_list_byte b)) context].
Proof. done. Qed.

(** [os.Create] either refuses, and changes nothing, or leaves an empty
    file at the path. *)
Lemma os_Create_cases (p : string) (w : world) :
  (exists err, os_Create p w = Run (Done (Err err)) w [CallCreate p]) \/
  (exists k, creatable w p k /\
             os_Create p w =
             Run (Done (OK {| fd_key := k; fd_name := p |})) (with_file w k [])
                 [CallCreate p]).
Proof.
  unfold os_Create, syscall, creatable, with_file.
  destruct (locate w p) as [k [|old]|k|e].
  - left. by eexists.
  - right. exists k. split; [right; by exists old | done].
  - right. exists k. split; [by left | done].
  - left. by eexists.
Qed.

Lemma os_Create_run (p : string) (w : world) (k : list string) :
  creatable w p k ->
  os_Create p w =
  Run (Done (OK {| fd_key := k; fd_name := p |})) (with_file w k []) [CallCreate p].
Proof.
  unfold os_Create, syscall, creatable, with_file.
  intros [E|[old E]]; by rewrite E.
Qed.

Lemma File_Write_run (k : list string) (p : string) (b old : list byte) (w : world) :
  node_at w k = Some (File old) ->
  write_fault w = None ->
  File_Write {| fd_key := k; fd_name := p |} b w =
  Run (Done (OK (Z.of_nat (length b)))) (with_file w k (old ++ b)) [CallWrite p b].
Proof. intros H Hf. unfold File_Write, syscall. cbn [fd_key fd_name]. by rewrite H, Hf. Qed.

Lemma File_Write_fails (k : list string) (p : string) (b old : list byte) (w : world)
    (n : nat) (e : errno) :
  node_at w k = Some (File old) ->
  write_fault w = Some (n, e) ->
  File_Write {| fd_key := k; fd_name := p |} b w =
  Run (Done (Err (PathError "write" p e))) (with_file w k (old ++ take n b))
      [CallWrite p b].
Proof. intros H Hf. unfold File_Write, syscall. cbn [fd_key fd_name]. by rewrite H, Hf. Qed.

Lemma node_at_created (w : world) (p : string) (k : list string) (data : list byte) :
  creatable w p k -> node_at (with_file w k data) k = Some (File data).
Proof.
  intros Hc. rewrite node_at_with_file, decide_True; [done | done |].
  eapply not_dir_key, creatable_node, Hc.
Qed.

(** Every run of [createSnapshot]: it returns, and what it returns and
    leaves is one of the cases of [create_outcome]. *)
Lemma createSnapshot_cases (testname : string) (b : list byte) (dir ext : string)
    (w : world) :
  exists e w' tr,
    createSnapshot testname b dir ext w = Run (Done e) w' tr /\
    create_outcome w (path_Join dir (getSnapFilename testname ext)) b e w' tr.
Proof.
  set (p := path_Join dir (getSnapFilename testname ext)).
  unfold createSnapshot. fold p.
  destruct (os_Create_cases p w) as [[err Hc] | (k & Hk & Hc)].
  { exists (Some err), w, [CallCreate p]. split; [|by apply create_refused].
    by rewrite (bind_done _ _ _ _ _ _ Hc). }
  rewrite (bind_done _ _ _ _ _ _ Hc). cbv beta iota.
  pose proof (node_at_created w p k [] Hk) as Hnode.
  destruct (write_fault w) as [[n e]|] eqn:Hw.
  { exists (Some (PathError "write" p e)), (with_file w k (take n b)),
      [CallCreate p; CallWrite p b].
    split; [|by eapply create_write_fails].
    rewrite (bind_done _ _ _ _ _ _
               (File_Write_fails k p b [] (with_file w k []) n e Hnode Hw)).
    cbv beta iota. cbn [out final trace ret app]. by rewrite with_file_twice. }
  rewrite (bind_done _ _ _ _ _ _ (File_Write_run k p b [] (with_file w k []) Hnode Hw)).
  cbv beta iota. unfold File_Close, syscall.
  cbn [out final trace app fd_name]. rewrite with_file_twice.
  cbn [close_fault with_file set_fs].
  destruct (close_fault w) as [e|] eqn:Hcl.
  - exists (Some (PathError "close" p e)), (with_file w k b),
      [CallCreate p; CallWrite p b; CallClose p].
    split; [done | by eapply create_close_fails].
  - exists None, (with_file w k b), [CallCreate p; CallWrite p b; CallClose p].
    split; [done | by eapply create_written].
Qed.

(** Where the file can be created on a device that takes it,
    [createSnapshot] leaves a file with exactly the bytes [b] and returns
    no error. *)
Lemma createSnapshot_run (testname : string) (b : list byte) (dir ext : string)
    (w : world) (k : list string) :
  let p := path_Join dir (getSnapFilename testname ext) in
  creatable w p k ->
  healthy w ->
  createSnapshot testname b dir ext w =
  Run (Done None) (with_file w k b) [CallCreate p; CallWrite p b; CallClose p].
Proof.
  intros p Hk [Hw Hcl]. unfold createSnapshot. fold p.
  rewrite (bind_done _ _ _ _ _ _ (os_Create_run p w k Hk)). cbv beta iota.
  pose proof (node_at_created w p k [] Hk) as Hnode.
  rewrite (bind_done _ _ _ _ _ _ (File_Write_run k p b [] (with_file w k []) Hnode Hw)).
  cbv beta iota. unfold File_Close, syscall.
  cbn [out final trace app fd_name]. rewrite with_file_twice.
  cbn [close_fault with_file set_fs]. by rewrite Hcl.
Qed.

Lemma create_or_fail_run (testname : string) (b : list byte) (dir ext : string)
    (w w' : world) (e : option error) (tr : list call) :
  createSnapshot testname b dir ext w = Run (Done e) w' tr ->
  (e <- createSnapshot testname b dir ext ;;
   match e with
   | Some err => Fatalf ("Unable to create snapshot: " +:+ Error err)
   | None => ret tt
   end) w = Run (finish e) w' tr.
Proof.
  intros H. rewrite (bind_done _ _ _ _ _ _ H).
  destruct e; cbn; by rewrite app_nil_r.
Qed.

Lemma os_MkdirAll_run (p : string) (perm : Z) (w w1 : world) (e : option error) :
  MkdirAll w p = (e, w1) ->
  os_MkdirAll p perm w = Run (Done e) w1 [CallMkdirAll p].
Proof. intros H. unfold os_MkdirAll, syscall. by rewrite H. Qed.

(** *** The branches of [Config.Assert] *)

Lemma run_no_directory (c : Config) (t : TB) (b : list byte) (w : world) :
  not_exist w (Config.Directory c) = true ->
  update_mode w = false ->
  Config_Assert c t b w =
  Run (Fatal msg_no_directory) w
      [CallStat (Config.Directory c); CallLookupEnv "UPDATE_SNAPSHOTS"].
Proof.
  intros Hdir Hup. enter c.
  unfold not_exist in Hdir. rewrite Hdir.
  rewrite (bind_done _ _ _ _ _ _ (isUpdateable_run w)), Hup.
  done.
Qed.

Lemma run_equal (c : Config) (t : TB) (b : list byte) (w : world) :
  not_exist w (Config.Directory c) = false ->
  stored w c t = Some b ->
  Config_Assert c t b w =
  Run (Done tt) w [CallStat (Config.Directory c); CallReadFile (snapPath c t)].
Proof.
  intros Hdir Hst. enter c.
  unfold not_exist in Hdir. rewrite Hdir.
  unfold readSnapshot.
  rewrite (bind_done _ _ _ _ _ _ (ReadFile_some _ _ _ Hst)).
  cbv beta iota. unfold bytes_Equal.
  destruct (decide (b = b)); done.
Qed.

Lemma run_first (c : Config) (t : TB) (b : list byte) (w : world) (k : list string) :
  not_exist w (Config.Directory c) = false ->
  stored w c t = None ->
  creatable w (snapPath c t) k ->
  healthy w ->
  Config_Assert c t b w =
  Run (Done tt) (with_file w k b)
      [CallStat (Config.Directory c); CallReadFile (snapPath c t);
       CallCreate (snapPath c t); CallWrite (snapPath c t) b;
       CallClose (snapPath c t)].
Proof.
  intros Hdir Hst Hk Hh. enter c.
  unfold not_exist in Hdir. rewrite Hdir.
  destruct (ReadFile_none _ _ Hst) as [err Hread].
  unfold readSnapshot. rewrite (bind_done _ _ _ _ _ _ Hread).
  cbv beta iota.
  rewrite (bind_done _ _ _ _ _ _ (createSnapshot_run _ b _ _ _ _ Hk Hh)).
  done.
Qed.

Lemma run_update (c : Config) (t : TB) (b expected : list byte) (w : world)
    (k : list string) :
  not_exist w (Config.Directory c) = false ->
  locate w (snapPath c t) = Found k (File expected) ->
  expected <> b ->
  update_mode w = true ->
  healthy w ->
  Config_Assert c t b w =
  Run (Done tt) (with_file w k b)
      [CallStat (Config.Directory c); CallReadFile (snapPath c t);
       CallLookupEnv "UPDATE_SNAPSHOTS";
       CallCreate (snapPath c t); CallWrite (snapPath c t) b;
       CallClose (snapPath c t)].
Proof.
  intros Hdir Hk Hne Hup Hh. enter c.
  unfold not_exist in Hdir. rewrite Hdir.
  assert (stored w c t = Some expected) as Hst.
  { unfold stored, file_at. by rewrite Hk. }
  unfold readSnapshot. rewrite (bind_done _ _ _ _ _ _ (ReadFile_some _ _ _ Hst)).
  cbv beta iota. unfold bytes_Equal.
  destruct (decide (expected = b)) as [|_]; [done |].
  rewrite (bind_done _ _ _ _ _ _ (isUpdateable_run w)), Hup.
  cbv beta iota.
  assert (creatable w (snapPath c t) k) as Hc by (right; by exists expected).
  rewrite (bind_done _ _ _ _ _ _ (createSnapshot_run _ b _ _ _ _ Hc Hh)).
  done.
Qed.

Lemma run_undiffable (c : Config) (t : TB) (b expected : list byte) (w : world) :
  not_exist w (Config.Directory c) = false ->
  stored w c t = Some expected ->
  expected <> b ->
  update_mode w = false ->
  Config.Diffable c = false ->
  Config_Assert c t b w =
  Run (Fatal (msg_undiffable t)) w
      [CallStat (Config.Directory c); CallReadFile (snapPath c t);
       CallLookupEnv "UPDATE_SNAPSHOTS"].
Proof.
  intros Hdir Hst Hne Hup Hd. enter c.
  unfold not_exist in Hdir. rewrite Hdir.
  unfold readSnapshot. rewrite (bind_done _ _ _ _ _ _ (ReadFile_some _ _ _ Hst)).
  cbv beta iota. unfold bytes_Equal.
  destruct (decide (expected = b)) as [|_]; [done |].
  rewrite (bind_done _ _ _ _ _ _ (isUpdateable_run w)), Hup, Hd.
  done.
Qed.

Lemma run_diff (c : Config) (t : TB) (b expected : list byte) (w : world)
    (diff : string) :
  not_exist w (Config.Directory c) = false ->
  stored w c t = Some expected ->
  expected <> b ->
  update_mode w = false ->
  Config.Diffable c = true ->
  diff_text expected b (Config.Context c) = OK diff ->
  Config_Assert c t b w =
  Run (verdict c t diff) w
      ([CallStat (Config.Directory c); CallReadFile (snapPath c t);
        CallLookupEnv "UPDATE_SNAPSHOTS";
        CallUnifiedDiff (difflib_SplitLines (string_of_list_byte expected))
                        (difflib_SplitLines (string_of_list_byte b))
                        (Config.Context c)] ++ find_calls c diff).
Proof.
  intros Hdir Hst Hne Hup Hd Hdiff. enter c.
  unfold not_exist in Hdir. rewrite Hdir.
  unfold readSnapshot. rewrite (bind_done _ _ _ _ _ _ (ReadFile_some _ _ _ Hst)).
  cbv beta iota. unfold bytes_Equal.
  destruct (decide (expected = b)) as [|_]; [done |].
  rewrite (bind_done _ _ _ _ _ _ (isUpdateable_run w)), Hup, Hd.
  cbv beta iota.
  rewrite (bind_done _ _ _ _ _ _ (getDiff_run _ _ _ w)), Hdiff.
  cbv beta iota. unfold verdict, find_calls.
  destruct (Config.ignore c) as [re|]; [|done].
  unfold bind, Regexp_FindStringIndex. cbn.
  by destruct (Regexp_find re diff).
Qed.

Lemma run_diff_error (c : Config) (t : TB) (b expected : list byte) (w : world)
    (err : error) :
  not_exist w (Config.Directory c) = false ->
  stored w c t = Some expected ->
  expected <> b ->
  update_mode w = false ->
  Config.Diffable c = true ->
  diff_text expected b (Config.Context c) = Err err ->
  out (Config_Assert c t b w) =
  Fatal ("Unable to compare snapshot to test output: " +:+ Error err) /\
  final (Config_Assert c t b w) = w.
Proof.
  intros Hdir Hst Hne Hup Hd Hdiff. enter c.
  unfold not_exist in Hdir. rewrite Hdir.
  unfold readSnapshot. rewrite (bind_done _ _ _ _ _ _ (ReadFile_some _ _ _ Hst)).
  cbv beta iota. unfold bytes_Equal.
  destruct (decide (expected = b)) as [|_]; [done |].
  rewrite (bind_done _ _ _ _ _ _ (isUpdateable_run w)), Hup, Hd.
  cbv beta iota.
  rewrite (bind_done _ _ _ _ _ _ (getDiff_run _ _ _ w)), Hdiff.
  done.
Qed.

(** Every run of [Config.Assert] is the run of one of its branches. *)
Lemma Config_Assert_branches (c : Config) (t : TB) (b : list byte) (w : world) :
  Assert_branch c t b w (Config_Assert c t b w).
Proof.
  destruct (not_exist w (Config.Directory c)) eqn:Hdir.
  - destruct (update_mode w) eqn:Hup.
    + destruct (MkdirAll w (Config.Directory c)) as [[err|] w1] eqn:Hmk.
      * enter c. unfold not_exist in Hdir. rewrite Hdir.
        rewrite (bind_done _ _ _ _ _ _ (isUpdateable_run w)), Hup.
        cbv beta iota.
        rewrite (bind_done _ _ _ _ _ _ (os_MkdirAll_run _ 511 _ _ _ Hmk)).
        cbv beta iota. cbn.
        by apply (branch_mkdir_fails c t b w err w1).
      * destruct (createSnapshot_cases (Name t) b (Config.Directory c)
                    (Config.Extension c) w1) as (e & w' & tr & Hrun & Hcase).
        enter c. unfold not_exist in Hdir. rewrite Hdir.
        rewrite (bind_done _ _ _ _ _ _ (isUpdateable_run w)), Hup.
        cbv beta iota.
        rewrite (bind_done _ _ _ _ _ _ (os_MkdirAll_run _ 511 _ _ _ Hmk)).
        cbv beta iota.
        rewrite (bind_done (ret tt) _ _ _ tt [] eq_refl).
        rewrite (create_or_fail_run _ _ _ _ _ _ _ _ Hrun).
        cbn [out final trace].
        by apply (branch_mkdir c t b w w1 e w' tr).
    + rewrite (run_no_directory c t b w Hdir Hup). by constructor.
  - destruct (stored w c t) as [expected|] eqn:Hst.
    + destruct (decide (expected = b)) as [->|Hne].
      { rewrite (run_equal c t b w Hdir Hst). by constructor. }
      destruct (update_mode w) eqn:Hup.
      * destruct (createSnapshot_cases (Name t) b (Config.Directory c)
                    (Config.Extension c) w) as (e & w' & tr & Hrun & Hcase).
        enter c. unfold not_exist in Hdir. rewrite Hdir.
        unfold readSnapshot.
        rewrite (bind_done _ _ _ _ _ _ (ReadFile_some _ _ _ Hst)).
        cbv beta iota. unfold bytes_Equal.
        destruct (decide (expected = b)) as [|_]; [done |].
        rewrite (bind_done _ _ _ _ _ _ (isUpdateable_run w)), Hup.
        cbv beta iota.
        rewrite (create_or_fail_run _ _ _ _ _ _ _ _ Hrun).
        cbn [out final trace].
        by apply (branch_update c t b w expected e w' tr).
      * destruct (Config.Diffable c) eqn:Hd.
        -- destruct (diff_text expected b (Config.Context c)) as [diff|err] eqn:E.
           ++ rewrite (run_diff c t b expected w diff Hdir Hst Hne Hup Hd E).
              by apply (branch_diff c t b w expected diff).
           ++ enter c. unfold not_exist in Hdir. rewrite Hdir.
              unfold readSnapshot.
              rewrite (bind_done _ _ _ _ _ _ (ReadFile_some _ _ _ Hst)).
              cbv beta iota. unfold bytes_Equal.
              destruct (decide (expected = b)) as [|_]; [done |].
              rewrite (bind_done _ _ _ _ _ _ (isUpdateable_run w)), Hup, Hd.
              cbv beta iota.
              rewrite (bind_done _ _ _ _ _ _ (getDiff_run _ _ _ w)), E.
              by apply (branch_diff_error c t b w expected err).
        -- rewrite (run_undiffable c t b expected w Hdir Hst Hne Hup Hd).
           by apply (branch_undiffable c t b w expected).
    + destruct (createSnapshot_cases (Name t) b (Config.Directory c)
                  (Config.Extension c) w) as (e & w' & tr & Hrun & Hcase).
      enter c. unfold not_exist in Hdir. rewrite Hdir.
      destruct (ReadFile_none _ _ Hst) as [err Hread].
      unfold readSnapshot. rewrite (bind_done _ _ _ _ _ _ Hread).
      cbv beta iota.
      rewrite (create_or_fail_run _ _ _ _ _ _ _ _ Hrun).
      cbn [out final trace].
      by apply (branch_first c t b w e w' tr).
Qed.

End Runs.
(** The branches of a run, with names for what each one knows. *)
Ltac branches c t b w :=
  destruct (Config_Assert_branches c t b w)
    as [Hdir Hup
       |err w1 Hdir Hup Hmk
       |w1 e w' tr Hdir Hup Hmk Hcreate
       |e w' tr Hdir Hst Hcreate
       |Hdir Hst
       |expected e w' tr Hdir Hst Hne Hup Hcreate
       |expected err Hdir Hst Hne Hup Hd Hdiff
       |expected diff Hdir Hst Hne Hup Hd Hdiff
       |expected Hdir Hst Hne Hup Hd].

(** A call of another kind is not in a list of calls that is written out. *)
Ltac not_in_calls H :=
  repeat (apply elem_of_cons in H as [H|H]; [by inversion H |]);
  by apply elem_of_nil in H.

(** ** What the branches have in common *)

Section Outcomes.
Context {L : Libraries}.

Lemma finish_passes (e : option error) (a : unit) : finish e = Done a -> e = None.
Proof. by destruct e. Qed.

Lemma finish_fails (e : option error) (msg : string) :
  finish e = Fatal msg ->
  exists err, e = Some err /\ msg = "Unable to create snapshot: " +:+ Error err.
Proof. destruct e as [err|]; [|done]. intros [= <-]. by exists err. Qed.

Lemma verdict_passes (c : Config) (t : TB) (diff : string) (a : unit) :
  verdict c t diff = Done a ->
  exists re, Config.ignore c = Some re /\ is_Some (Regexp_find re diff).
Proof.
  unfold verdict. destruct (Config.ignore c) as [re|]; [|done].
  destruct (Regexp_find re diff) eqn:E; [|done].
  intros _. exists re. by rewrite E.
Qed.

(** A [createSnapshot] that returns no error has written the file. *)
Lemma create_outcome_written (w w' : world) (p : string) (b : list byte)
    (tr : list call) :
  create_outcome w p b None w' tr ->
  exists k, creatable w p k /\ healthy w /\ w' = with_file w k b /\
            tr = [CallCreate p; CallWrite p b; CallClose p].
Proof. intros H. inversion H as [| | |k Hk Hh]; subst. by exists k. Qed.

Lemma create_outcome_stored (c : Config) (t : TB) (b : list byte) (w w' : world)
    (tr : list call) :
  create_outcome w (snapPath c t) b None w' tr -> stored w' c t = Some b.
Proof.
  intros H. apply create_outcome_written in H as (k & Hk & _ & -> & _).
  by apply file_at_created.
Qed.

(** Whatever [createSnapshot] returns, it has opened at most one file. *)
Lemma create_outcome_file (w w' : world) (p : string) (b : list byte)
    (e : option error) (tr : list call) :
  create_outcome w p b e w' tr ->
  w' = w \/ exists k n, creatable w p k /\ w' = with_file w k (take n b).
Proof.
  intros H. inversion H as [err Hc|k n e1 Hk Hf|k e1 Hk Hf1 Hf2|k Hk Hh]; subst.
  - by left.
  - right. by exists k, n.
  - right. exists k, (length b). by rewrite take_ge.
  - right. exists k, (length b). by rewrite take_ge.
Qed.

Lemma create_outcome_not_exist (w w' : world) (p q : string) (b : list byte)
    (e : option error) (tr : list call) :
  create_outcome w p b e w' tr ->
  not_exist w q = false -> not_exist w' q = false.
Proof.
  intros H Hq. apply create_outcome_file in H as [->|(k & n & Hk & ->)]; [done |].
  apply not_exist_with_file; [by eapply creatable_node | done].
Qed.

Lemma create_outcome_is_dir (w w' : world) (p q : string) (b : list byte)
    (e : option error) (tr : list call) :
  create_outcome w p b e w' tr -> is_dir w q -> is_dir w' q.
Proof.
  intros H Hq. apply create_outcome_file in H as [->|(k & n & Hk & ->)]; [done |].
  apply is_dir_with_file; [by eapply creatable_node | done].
Qed.

Lemma with_file_same_but (w : world) (p : string) (k : list string) (b : list byte)
    (n : nat) :
  creatable w p k -> same_but w (with_file w k (take n b)) p b.
Proof.
  intros Hk. split; [done |]. intros a. cbn [fs with_file set_fs].
  pose proof (creatable_node _ _ _ Hk) as Hnode.
  pose proof (not_dir_key _ _ Hnode) as Hne.
  destruct (decide (a = k)) as [->|Ha].
  - right. right. rewrite <- node_at_fs by done. split; [done |].
    exists n. rewrite lookup_insert_eq. split; [done |]. by apply locate_created.
  - left. by rewrite lookup_insert_ne.
Qed.

Lemma same_but_refl (w : world) (p : string) (b : list byte) : same_but w w p b.
Proof. split; [done |]. by left. Qed.

Lemma create_outcome_same_but (w w' : world) (p : string) (b : list byte)
    (e : option error) (tr : list call) :
  create_outcome w p b e w' tr -> same_but w w' p b.
Proof.
  intros H. apply create_outcome_file in H as [->|(k & n & Hk & ->)].
  - apply same_but_refl.
  - by apply with_file_same_but.
Qed.

Lemma adds_dirs_same_but (w1 w2 w3 : world) (p : string) (b : list byte) :
  adds_dirs w1 w2 -> same_but w2 w3 p b -> same_but w1 w3 p b.
Proof.
  intros [Hp1 H1] [Hp2 H2]. split; [by eapply same_process_trans |].
  intros k. destruct (H1 k) as [E1|[E1 E1']], (H2 k) as [E2|[[E2 E2']|[E2 E2']]].
  - left. congruence.
  - right. left. split; congruence.
  - right. right. split; [congruence | done].
  - right. left. split; congruence.
  - congruence.
  - congruence.
Qed.

Lemma create_outcome_quiet (w w' : world) (p : string) (b : list byte)
    (e : option error) (tr : list call) (x : call) :
  create_outcome w p b e w' tr -> x ∈ tr ->
  x = CallCreate p \/ x = CallWrite p b \/ x = CallClose p.
Proof.
  intros H Hin. inversion H; subst;
    repeat (apply elem_of_cons in Hin as [Hin|Hin]; [by auto |]);
    by apply elem_of_nil in Hin.
Qed.

(** With update mode off an assertion writes only where the snapshot
    cannot be read: where there is a stored snapshot, the world after the
    assertion is the world before it, however the assertion ends. *)
Lemma Config_Assert_keeps_store (c : Config) (t : TB) (b old : list byte)
    (w : world) :
  update_mode w = false ->
  stored w c t = Some old ->
  final (Config_Assert c t b w) = w.
Proof.
  intros Hmode Hstored.
  branches c t b w; cbn [final]; congruence.
Qed.

(** With update mode off, an assertion that passes can be repeated: the
    second assertion of the same bytes passes too and leaves the world as
    the first one left it. *)
Lemma Config_Assert_twice (c : Config) (t : TB) (b : list byte) (w : world) :
  update_mode w = false ->
  passes (Config_Assert c t b w) ->
  let w1 := final (Config_Assert c t b w) in
  passes (Config_Assert c t b w1) /\ final (Config_Assert c t b w1) = w1.
Proof.
  intros Hmode [a Ha]. cbv zeta.
  branches c t b w; cbn [out final] in *; try congruence.
  - apply finish_passes in Ha as ->.
    assert (not_exist w' (Config.Directory c) = false) as Hdir'
      by (by eapply create_outcome_not_exist).
    assert (stored w' c t = Some b) as Hst' by (by eapply create_outcome_stored).
    rewrite (run_equal c t b w' Hdir' Hst'). split; [by exists tt | done].
  - rewrite (run_equal c t b w Hdir Hst). split; [by exists tt | done].
  - rewrite (run_diff c t b expected w diff Hdir Hst Hne Hup Hd Hdiff).
    split; [by exists a | done].
Qed.

(** The decision between failing and rewriting is taken on the
    environment of the call: the assertion that fails on a mismatch while
    the variable is absent passes, and overwrites the snapshot, once the
    variable has been set, to any value. *)
Lemma Config_Assert_sees_update_mode (c : Config) (t : TB) (b expected : list byte)
    (w : world) (v : string) :
  healthy w ->
  not_exist w (Config.Directory c) = false ->
  stored w c t = Some expected ->
  expected <> b ->
  update_mode w = false ->
  Config.Diffable c = false ->
  let r1 := Config_Assert c t b w in
  let r2 := Config_Assert c t b (Setenv "UPDATE_SNAPSHOTS" v (final r1)) in
  out r1 = Fatal (msg_undiffable t) /\
  out r2 = Done tt /\
  stored (final r2) c t = Some b.
Proof.
  intros Hh Hdir Hst Hne Hup Hd. cbv zeta.
  rewrite (run_undiffable c t b expected w Hdir Hst Hne Hup Hd).
  cbn [out final]. split; [done |].
  set (w' := Setenv "UPDATE_SNAPSHOTS" v w).
  assert (update_mode w' = true) as Hup'.
  { unfold update_mode, w', Setenv. simpl.
    rewrite lookup_insert_eq. by apply bool_decide_eq_true_2. }
  destruct (file_at_exists _ _ _ Hst) as [k Hk].
  assert (not_exist w' (Config.Directory c) = false) as Hdir'
    by (unfold w'; by rewrite not_exist_Setenv).
  assert (locate w' (snapPath c t) = Found k (File expected)) as Hk'
    by (unfold w'; by rewrite locate_Setenv).
  rewrite (run_update c t b expected w' k Hdir' Hk' Hne Hup' Hh).
  cbn [out final]. split; [done |].
  apply (file_at_created w'). right. by exists expected.
Qed.

(** The package-level [Assert] on a byte slice is [Config.Assert] with the
    default configuration under the working directory. *)
Lemma Assert_bytes (t : TB) (b : list byte) (w : world) :
  node_at w (cwd w) = Some Dir ->
  Assert t (Bytes b) w =
  let r := Config_Assert
             (Config.mk (path_Join (render true (cwd w)) "__snapshots__")
                        10 true ".snap" None) t b w in
  Run (out r) (final r) (CallGetwd :: trace r).
Proof.
  intros Hcwd. unfold Assert, New.
  erewrite (bind_done (bind os_Getwd _)); cycle 1.
  { erewrite bind_done; cycle 1.
    { unfold os_Getwd, syscall. rewrite Hcwd. reflexivity. }
    reflexivity. }
  reflexivity.
Qed.

End Outcomes.


(** ** The file name of a snapshot *)

Section Claims.
Context {L : Libraries}.

Lemma replace_byte_dashed (c : ascii) : replace_byte snapReplacer c = dashed c.
Proof.
  unfold snapReplacer, dashed. simpl.
  repeat (destruct (decide _) as [?|?]; [done |]). done.
Qed.

Lemma dashed_not_slash (c : ascii) : dashed c <> "/"%char.
Proof.
  unfold dashed. simpl.
  repeat (destruct (decide _) as [?|?]; [done |]). congruence.
Qed.

(** The file name of a snapshot names an entry of the snapshot directory
    whenever the extension has no slash and at least three bytes, as the
    default [.snap] has. *)
Lemma getSnapFilename_simple (testname ext : string) :
  has_byte "/" ext = false -> 3 <= String.length ext ->
  simple_name (getSnapFilename testname ext) = true.
Proof.
  intros Hslash Hlen. apply simple_name_spec.
  unfold getSnapFilename, Replacer_Replace. split.
  - set (s := map_bytes _ _).
    assert (3 <= String.length (s +:+ ext)) as H by (rewrite length_append; lia).
    unfold is_name. repeat split; intros E; rewrite E in H; simpl in H; lia.
  - rewrite has_byte_append, Hslash, orb_false_r.
    apply has_byte_map. intros x. rewrite replace_byte_dashed.
    apply dashed_not_slash.
Qed.

(** C7, as amended. The file name of a snapshot is the lower-cased test
    name in which each of the bytes ['], space, [<], [>], [&], [#], [/]
    and [\] is replaced by [-], followed by the extension; the test named
    [Test: A/B <X>] with the extension [.snap] has the file name
    [test:-a-b--x-.snap] (the colon is not in the replacement set). *)
Theorem getSnapFilename_spec (testname ext : string) :
  getSnapFilename testname ext = map_bytes dashed (strings_ToLower testname) +:+ ext /\
  getSnapFilename "Test: A/B <X>" ".snap" = "test:-a-b--x-.snap".
Proof.
  split; [|done].
  unfold getSnapFilename, Replacer_Replace. f_equal.
  apply map_bytes_ext, replace_byte_dashed.
Qed.

(** ** Update mode *)

(** C8. Update mode is on exactly when the variable [UPDATE_SNAPSHOTS] is
    in the environment at the time of the check, whatever its value (the
    empty string included); the check reads the environment each time, so
    a check made after the variable was set or removed sees the change
    whatever an earlier check returned. *)
Theorem isUpdateable_presence (w : world) :
  isUpdateable w =
    Run (Done (bool_decide (is_Some (env w !! "UPDATE_SNAPSHOTS")))) w
        [CallLookupEnv "UPDATE_SNAPSHOTS"] /\
  (forall v, out (isUpdateable (Setenv "UPDATE_SNAPSHOTS" v w)) = Done true) /\
  out (isUpdateable (Unsetenv "UPDATE_SNAPSHOTS" w)) = Done false /\
  (forall v, out ((isUpdateable ;;; os_Setenv "UPDATE_SNAPSHOTS" v ;;; isUpdateable) w)
             = Done true) /\
  out ((isUpdateable ;;; os_Unsetenv "UPDATE_SNAPSHOTS" ;;; isUpdateable) w) = Done false.
Proof.
  assert (forall v, update_mode (Setenv "UPDATE_SNAPSHOTS" v w) = true) as Hset.
  { intros v. unfold update_mode, Setenv. simpl.
    rewrite lookup_insert_eq. by apply bool_decide_eq_true_2. }
  assert (update_mode (Unsetenv "UPDATE_SNAPSHOTS" w) = false) as Hunset.
  { unfold update_mode, Unsetenv. simpl.
    rewrite lookup_delete_eq. apply bool_decide_eq_false_2. by intros [? ?]. }
  split; [apply isUpdateable_run |].
  split; [intros v; by rewrite isUpdateable_run, Hset |].
  split; [by rewrite isUpdateable_run, Hunset |].
  split.
  - intros v. rewrite (bind_done _ _ _ _ _ _ (isUpdateable_run w)).
    cbn [out]. rewrite (bind_done (os_Setenv _ v) _ w _ tt [] eq_refl).
    cbn [out]. by rewrite isUpdateable_run, Hset.
  - rewrite (bind_done _ _ _ _ _ _ (isUpdateable_run w)).
    cbn [out]. rewrite (bind_done (os_Unsetenv _) _ w _ tt [] eq_refl).
    cbn [out]. by rewrite isUpdateable_run, Hunset.
Qed.

(** ** Configuration *)

Lemma apply_options_context (specs : list option_spec) (c c' : Config) :
  apply_options (map to_option specs) c = OK c' ->
  Config.Context c' =
  fold_left (fun acc o => match o with OptContextLines n => n | _ => acc end)
            specs (Config.Context c).
Proof.
  revert c. induction specs as [|o specs IH]; intros c H; simpl in *.
  - by inversion H.
  - destruct o as [dir|n|b|r|ext]; simpl in H; try (by rewrite (IH _ H)).
    unfold IgnoreRegex in H. destruct (regexp_Compile r); [|done].
    by rewrite (IH _ H).
Qed.

Lemma last_context_nonneg (specs : list option_spec) (d : Z) :
  (0 <= d)%Z -> Forall (fun n => (0 <= n)%Z) (context_args specs) ->
  (0 <= fold_left (fun acc o => match o with OptContextLines n => n | _ => acc end)
                  specs d)%Z.
Proof.
  revert d. induction specs as [|o specs IH]; intros d Hd H; simpl; [done |].
  destruct o; simpl in H; try (by apply IH).
  inversion H; subst. by apply IH.
Qed.

Lemma last_context_default (specs : list option_spec) (d : Z) :
  context_args specs = [] ->
  fold_left (fun acc o => match o with OptContextLines n => n | _ => acc end)
            specs d = d.
Proof.
  revert d. induction specs as [|o specs IH]; intros d H; simpl; [done |].
  destruct o; simpl in H; try (by apply IH). done.
Qed.

Lemma New_run (options : list ConfigOption) (w : world) (c : Config) :
  out (New options w) = Done (OK c) ->
  exists wd, apply_options options
               (Config.mk (path_Join wd "__snapshots__") 10 true ".snap" None) = OK c.
Proof.
  unfold New, bind, os_Getwd, syscall. simpl.
  destruct (node_at w (cwd w)) as [[|?]|]; simpl; intros H; inversion H.
  by eexists.
Qed.

(** C9, as amended. The context-line count of a configuration that [New]
    returns is the argument of the last [ContextLines] among the options,
    and 10 where no option sets it; it is not negative where no
    [ContextLines] was given a negative argument. *)
Theorem New_context (specs : list option_spec) (w : world) (c : Config) :
  out (New (map to_option specs) w) = Done (OK c) ->
  Config.Context c = last_context specs /\
  (context_args specs = [] -> Config.Context c = 10%Z) /\
  (Forall (fun n => (0 <= n)%Z) (context_args specs) -> (0 <= Config.Context c)%Z).
Proof.
  intros H. apply New_run in H as [wd H].
  apply apply_options_context in H. simpl in H. rewrite H.
  split; [done |]. split.
  - apply last_context_default.
  - by apply last_context_nonneg.
Qed.

(** ** The lifecycle of a snapshot *)

(** C1. Where the snapshot directory exists and the stored snapshot of the
    test equals the asserted bytes, [Config.Assert] passes after one look
    at the directory and one read of the file, and changes nothing; so a
    second assertion of the same bytes passes as well and the stored
    snapshot is still the same. Update mode plays no part. *)
Theorem assert_equal_passes (c : Config) (t : TB) (b : list byte) (w : world) :
  not_exist w (Config.Directory c) = false ->
  stored w c t = Some b ->
  let r1 := Config_Assert c t b w in
  let r2 := Config_Assert c t b (final r1) in
  out r1 = Done tt /\ final r1 = w /\
  trace r1 = [CallStat (Config.Directory c); CallReadFile (snapPath c t)] /\
  out r2 = Done tt /\ final r2 = w /\ stored (final r2) c t = Some b.
Proof.
  intros Hdir Hst. cbv zeta.
  rewrite !(run_equal c t b w Hdir Hst). cbn [out final trace].
  by rewrite !(run_equal c t b w Hdir Hst).
Qed.

(** C2, as amended. Where the snapshot directory is there and no
    snapshot of the test is stored, [Config.Assert] tries to create the
    snapshot. It passes exactly where the path of the snapshot leads to a
    free name of the directory (which a file name of more than [NAME_MAX]
    bytes does not) and the device takes the write and the close. It then
    leaves a file system that differs from the one before in exactly one
    new file, the snapshot, which holds exactly the asserted bytes, and
    asserting the same bytes again passes and changes nothing. Where it
    does not pass, it stops the test with the error of [createSnapshot]. *)
Theorem first_run_records (c : Config) (t : TB) (b : list byte) (w : world) :
  is_dir w (Config.Directory c) ->
  stored w c t = None ->
  let r1 := Config_Assert c t b w in
  let r2 := Config_Assert c t b (final r1) in
  (passes r1 <-> nothing_at w (snapPath c t) /\ healthy w) /\
  (forall k,
     locate w (snapPath c t) = Absent k -> healthy w ->
     fs w !! k = None /\
     out r1 = Done tt /\
     final r1 = set_fs w (<[k := File b]> (fs w)) /\
     size (fs (final r1)) = S (size (fs w)) /\
     stored (final r1) c t = Some b /\
     out r2 = Done tt /\ final r2 = final r1) /\
  (forall msg, out r1 = Fatal msg ->
               exists err, msg = "Unable to create snapshot: " +:+ Error err).
Proof.
  intros Hthere Hnone. cbv zeta.
  pose proof (is_dir_exists _ _ Hthere) as Hexists.
  assert (forall k,
            locate w (snapPath c t) = Absent k -> healthy w ->
            fs w !! k = None /\
            out (Config_Assert c t b w) = Done tt /\
            final (Config_Assert c t b w) = set_fs w (<[k := File b]> (fs w)) /\
            size (fs (final (Config_Assert c t b w))) = S (size (fs w)) /\
            stored (final (Config_Assert c t b w)) c t = Some b /\
            out (Config_Assert c t b (final (Config_Assert c t b w))) = Done tt /\
            final (Config_Assert c t b (final (Config_Assert c t b w)))
            = final (Config_Assert c t b w)) as Hrecords.
  { intros k Hk Hh.
    assert (creatable w (snapPath c t) k) as Hc by (by left).
    pose proof (creatable_node _ _ _ Hc) as Hnode.
    assert (fs w !! k = None) as Hfree.
    { rewrite <- node_at_fs by (by eapply not_dir_key). by eapply locate_absent. }
    rewrite (run_first c t b w k Hexists Hnone Hc Hh). cbn [out final trace].
    assert (stored (with_file w k b) c t = Some b) as Hst1
      by (by apply file_at_created).
    assert (not_exist (with_file w k b) (Config.Directory c) = false) as Hdir1
      by (by apply not_exist_with_file).
    rewrite (run_equal c t b _ Hdir1 Hst1). cbn [out final].
    repeat split; try done.
    unfold with_file. simpl. by apply map_size_insert_None. }
  split; [|split; [exact Hrecords |]].
  - split.
    + intros [a Ha]. branches c t b w; try congruence. cbn [out] in Ha.
      apply finish_passes in Ha as ->.
      apply create_outcome_written in Hcreate as (k & [Hk|[old Hk]] & Hh & _).
      * split; [by exists k | done].
      * unfold stored, file_at in Hnone. by rewrite Hk in Hnone.
    + intros [[k Hk] Hh]. destruct (Hrecords k Hk Hh) as (_ & Hout & _). by exists tt.
  - intros msg Hmsg. branches c t b w; try congruence. cbn [out] in Hmsg.
    apply finish_fails in Hmsg as (err' & _ & ->). by exists err'.
Qed.


(** C4. With update mode off, a diffable configuration with an ignore
    pattern, and a stored snapshot that differs from the asserted bytes,
    [Config.Assert] passes exactly when the pattern finds a match in the
    diff text, and otherwise fails with a message that ends in the diff
    text; in both cases the world is left as it was, the snapshot
    included. *)
Theorem ignore_pattern_decides (c : Config) (t : TB) (b expected : list byte)
    (w : world) (re : Regexp) (diff : string) :
  not_exist w (Config.Directory c) = false ->
  stored w c t = Some expected ->
  expected <> b ->
  update_mode w = false ->
  Config.Diffable c = true ->
  Config.ignore c = Some re ->
  diff_text expected b (Config.Context c) = OK diff ->
  let r := Config_Assert c t b w in
  (passes r <-> is_Some (Regexp_find re diff)) /\
  (Regexp_find re diff = None ->
   out r = Fatal ("Snapshot test failed for: " +:+ Name t +:+
                  ".  Diff:" +:+ nl +:+ nl +:+ diff)) /\
  final r = w /\ stored (final r) c t = Some expected /\
  (forall p, CallCreate p ∉ trace r) /\ (forall p x, CallWrite p x ∉ trace r).
Proof.
  intros Hdir Hst Hne Hup Hd Hig Hdiff. cbv zeta.
  rewrite (run_diff c t b expected w diff Hdir Hst Hne Hup Hd Hdiff).
  unfold verdict, find_calls, passes. rewrite Hig. cbn [out final trace].
  split.
  - destruct (Regexp_find re diff) as [m|]; split.
    + by eexists.
    + by exists tt.
    + by intros [? ?].
    + by intros [? ?].
  - split; [by intros -> |]. split; [done |]. split; [done |].
    split; [intros p H | intros p x H];
      repeat (apply elem_of_cons in H as [H|H]; [done |]);
      by apply elem_of_nil in H.
Qed.


(** C6. With update mode off and a configuration that is not diffable, a
    stored snapshot that differs from the asserted bytes makes
    [Config.Assert] fail with the message for an undiffable binary format;
    the diff engine is not called, and the world is left as it was. *)
Theorem undiffable_mismatch_fails (c : Config) (t : TB) (b expected : list byte)
    (w : world) :
  not_exist w (Config.Directory c) = false ->
  stored w c t = Some expected ->
  expected <> b ->
  update_mode w = false ->
  Config.Diffable c = false ->
  let r := Config_Assert c t b w in
  out r = Fatal ("Snapshot test failed for: " +:+ Name t +:+
                 ".  Diff: (undiffable binary format)") /\
  final r = w /\
  (forall x y n, CallUnifiedDiff x y n ∉ trace r).
Proof.
  intros Hdir Hst Hne Hup Hd. cbv zeta.
  rewrite (run_undiffable c t b expected w Hdir Hst Hne Hup Hd).
  cbn [out final trace]. split; [done |]. split; [done |].
  intros x y n H.
  repeat (apply elem_of_cons in H as [H|H]; [done |]).
  by apply elem_of_nil in H.
Qed.

(** C10. In a configuration that is not diffable the ignore pattern plays
    no part: with update mode off and a stored snapshot that differs from
    the asserted bytes, [Config.Assert] fails whatever the ignore pattern
    is, also one that matches the diff text of the two; the pattern
    matcher is not called, and the run is the same for every ignore
    pattern and for none. *)
Theorem ignore_unused_when_undiffable (c : Config) (t : TB) (b expected : list byte)
    (w : world) :
  not_exist w (Config.Directory c) = false ->
  stored w c t = Some expected ->
  expected <> b ->
  update_mode w = false ->
  Config.Diffable c = false ->
  forall ig : option Regexp,
    let r := Config_Assert (set_ignore ig c) t b w in
    (exists msg, out r = Fatal msg) /\
    (forall s, CallFindStringIndex s ∉ trace r) /\
    r = Config_Assert c t b w.
Proof.
  intros Hdir Hst Hne Hup Hd ig. cbv zeta.
  rewrite (run_undiffable c t b expected w Hdir Hst Hne Hup Hd).
  rewrite (run_undiffable (set_ignore ig c) t b expected w Hdir Hst Hne Hup Hd).
  cbn [out trace]. split; [by eexists |]. split; [|done].
  intros s H.
  repeat (apply elem_of_cons in H as [H|H]; [done |]).
  by apply elem_of_nil in H.
Qed.

End Claims.

(** ** The claims on concrete inputs

    The test [TestOld] has the stored snapshot [old] in the directory
    [/w/__snapshots__] of [demo_world]; the test [TestNew] has none. *)

Lemma assert_equal_passes_witness :
  stored demo_world demo_config {| Name := "TestOld" |} = Some (bytes "old") /\
  out (Config_Assert demo_config {| Name := "TestOld" |} (bytes "old") demo_world)
  = Done tt /\
  final (Config_Assert demo_config {| Name := "TestOld" |} (bytes "old") demo_world)
  = demo_world.
Proof.
  assert (not_exist demo_world (Config.Directory demo_config) = false) as H1
    by (vm_compute; reflexivity).
  assert (stored demo_world demo_config {| Name := "TestOld" |} = Some (bytes "old"))
    as H2 by (vm_compute; reflexivity).
  destruct (assert_equal_passes demo_config {| Name := "TestOld" |} (bytes "old")
              demo_world H1 H2) as (R1 & R2 & _).
  split; [exact H2 |]. split; [exact R1 | exact R2].
Defined.

Lemma first_run_records_witness :
  stored demo_world demo_config {| Name := "TestNew" |} = None /\
  passes (Config_Assert demo_config {| Name := "TestNew" |} (bytes "new") demo_world) /\
  fs (final (Config_Assert demo_config {| Name := "TestNew" |} (bytes "new")
               demo_world))
  = <[ ["w"; "__snapshots__"; "testnew.snap"] := File (bytes "new") ]> (fs demo_world).
Proof.
  assert (stored demo_world demo_config {| Name := "TestNew" |} = None) as Hnone
    by (vm_compute; reflexivity).
  split; [exact Hnone |].
  destruct (first_run_records demo_config {| Name := "TestNew" |} (bytes "new")
              demo_world) as (_ & H & _).
  - exists ["w"; "__snapshots__"]. vm_compute; reflexivity.
  - exact Hnone.
  - destruct (H ["w"; "__snapshots__"; "testnew.snap"]) as (_ & Hout & R & _).
    + vm_compute; reflexivity.
    + split; reflexivity.
    + split; [by exists tt | by rewrite R].
Defined.

(** The directory is there and no snapshot of the test is stored, and the
    assertion fails: for a test name of 300 bytes, because the file cannot
    be created; on a full device, because it cannot be written. *)
Lemma first_run_can_fail :
  (is_dir demo_world (Config.Directory demo_config) /\
   stored demo_world demo_config {| Name := long_name |} = None /\
   Config_Assert demo_config {| Name := long_name |} (bytes "new") demo_world =
   Run (Fatal ("Unable to create snapshot: open " +:+
               snapPath demo_config {| Name := long_name |} +:+
               ": file name too long"))
       demo_world
       [CallStat "/w/__snapshots__";
        CallReadFile (snapPath demo_config {| Name := long_name |});
        CallCreate (snapPath demo_config {| Name := long_name |})]) /\
  (is_dir demo_world_full (Config.Directory demo_config) /\
   nothing_at demo_world_full (snapPath demo_config {| Name := "TestNew" |}) /\
   out (Config_Assert demo_config {| Name := "TestNew" |} (bytes "new") demo_world_full)
   = Fatal ("Unable to create snapshot: write /w/__snapshots__/testnew.snap: " +:+
            "no space left on device")).
Proof.
  split.
  - split; [exists ["w"; "__snapshots__"]; vm_compute; reflexivity |].
    split; vm_compute; reflexivity.
  - split; [exists ["w"; "__snapshots__"]; vm_compute; reflexivity |].
    split; [exists ["w"; "__snapshots__"; "testnew.snap"] |]; vm_compute; reflexivity.
Qed.



(** The pattern [-old] is found in the diff of [old] and [new]. *)
Lemma ignore_pattern_decides_witness :
  passes (Config_Assert (demo_with "/w/__snapshots__" true (Some "-old"))
            {| Name := "TestOld" |} (bytes "new") demo_world).
Proof.
  apply (ignore_pattern_decides (L := literal_libs)
           (demo_with "/w/__snapshots__" true (Some "-old"))
           {| Name := "TestOld" |} (bytes "new") (bytes "old") demo_world "-old"
           demo_diff).
  - vm_compute; reflexivity.
  - vm_compute; reflexivity.
  - vm_compute. discriminate.
  - vm_compute; reflexivity.
  - reflexivity.
  - reflexivity.
  - vm_compute; reflexivity.
  - vm_compute. eexists. reflexivity.
Defined.



Lemma undiffable_mismatch_fails_witness :
  out (Config_Assert (demo_with "/w/__snapshots__" false None)
         {| Name := "TestOld" |} (bytes "new") demo_world)
  = Fatal "Snapshot test failed for: TestOld.  Diff: (undiffable binary format)".
Proof.
  apply (undiffable_mismatch_fails (L := literal_libs)
           (demo_with "/w/__snapshots__" false None)
           {| Name := "TestOld" |} (bytes "new") (bytes "old") demo_world).
  - vm_compute; reflexivity.
  - vm_compute; reflexivity.
  - vm_compute. discriminate.
  - vm_compute; reflexivity.
  - reflexivity.
Defined.

(** The pattern [-old] is found in the diff text of [old] and [new], and
    the assertion fails all the same. *)
Lemma ignore_unused_when_undiffable_witness :
  is_Some (@Regexp_find literal_libs "-old" demo_diff) /\
  exists msg,
    out (Config_Assert
           (set_ignore (L := literal_libs) (Some "-old")
              (demo_with "/w/__snapshots__" false None))
           {| Name := "TestOld" |} (bytes "new") demo_world)
    = Fatal msg.
Proof.
  split; [vm_compute; eexists; reflexivity |].
  apply (ignore_unused_when_undiffable (L := literal_libs)
           (demo_with "/w/__snapshots__" false None)
           {| Name := "TestOld" |} (bytes "new") (bytes "old") demo_world).
  - vm_compute; reflexivity.
  - vm_compute; reflexivity.
  - vm_compute. discriminate.
  - vm_compute; reflexivity.
  - reflexivity.
Defined.

Lemma New_context_witness :
  Config.Context
    (Config.mk (Regexp := string) "/w/__snapshots__" 7 true ".snap" (Some "x")) = 7%Z.
Proof.
  apply (New_context (L := literal_libs)
           [OptContextLines 3; OptIgnoreRegex "x"; OptContextLines 7] demo_world).
  vm_compute. reflexivity.
Defined.

(** The file name that the documentation gives for the test named
    [Test: A/B <X>] is not the one [getSnapFilename] returns. *)
Lemma getSnapFilename_example_wrong :
  getSnapFilename (L := literal_libs) "Test: A/B <X>" ".snap" <> "test---a-b--x-.snap".
Proof. vm_compute. discriminate. Qed.

(** [ContextLines] takes a negative argument as it is. *)
Lemma New_context_negative :
  exists c,
    out (New (L := literal_libs) [ContextLines (-1)] demo_world) = Done (OK c) /\
    (Config.Context c < 0)%Z.
Proof. eexists. split; [vm_compute; reflexivity | vm_compute; reflexivity]. Qed.

(** ** What an assertion guarantees and what it never does *)

Section Guarantees.
Context {L : Libraries}.

Lemma create_not_refused (w : world) (p : string) (k : list string) (err : error) :
  creatable w p k -> os_Create p w <> Run (Done (Err err)) w [CallCreate p].
Proof.
  unfold os_Create, syscall, creatable.
  intros [E|[old E]]; rewrite E; by intros [=].
Qed.

Lemma creatable_unique (w : world) (p : string) (k k' : list string) :
  creatable w p k -> creatable w p k' -> k' = k.
Proof. intros [E|[old E]] [E'|[old' E']]; congruence. Qed.

(** X1. What a passing assertion means: afterwards the stored snapshot of
    the test is exactly the asserted bytes, unless the configuration has an
    ignore pattern, the stored snapshot differs, and the pattern is found
    in the diff text of the two. Without an ignore pattern a pass always
    means that the stored snapshot equals the asserted bytes. *)
Theorem pass_means_stored (c : Config) (t : TB) (b : list byte) (w : world) :
  passes (Config_Assert c t b w) ->
  let w' := final (Config_Assert c t b w) in
  (stored w' c t = Some b \/
   exists re expected diff,
     Config.ignore c = Some re /\ stored w' c t = Some expected /\
     expected <> b /\ w' = w /\
     diff_text expected b (Config.Context c) = OK diff /\
     is_Some (Regexp_find re diff)) /\
  (Config.ignore c = None -> stored w' c t = Some b).
Proof.
  intros [a Ha]. cbv zeta.
  assert (stored (final (Config_Assert c t b w)) c t = Some b \/
          exists re expected diff,
            Config.ignore c = Some re /\
            stored (final (Config_Assert c t b w)) c t = Some expected /\
            expected <> b /\ final (Config_Assert c t b w) = w /\
            diff_text expected b (Config.Context c) = OK diff /\
            is_Some (Regexp_find re diff)) as H.
  { branches c t b w; cbn [out final] in *; try discriminate Ha.
    - apply finish_passes in Ha as ->. left. by eapply create_outcome_stored.
    - apply finish_passes in Ha as ->. left. by eapply create_outcome_stored.
    - by left.
    - apply finish_passes in Ha as ->. left. by eapply create_outcome_stored.
    - apply verdict_passes in Ha as (re & Hre & Hfind).
      right. by exists re, expected, diff. }
  split; [exact H |].
  intros Hig. destruct H as [H | (re & _ & _ & Hre & _)]; [done | congruence].
Qed.

(** X2. An assertion leaves the working directory, the environment and
    the device as they are, and in the file system it changes at most the
    snapshot file of the test and, in update mode, makes directories that
    were not there: every entry is afterwards what it was before, or is a
    new directory, or is the file that the path of the snapshot leads to,
    which then holds the asserted bytes or, after a failed write, the
    first of them; no directory is removed or replaced, however the
    assertion ends. *)
Theorem assert_frame (c : Config) (t : TB) (b : list byte) (w : world) :
  let w' := final (Config_Assert c t b w) in
  (cwd w' = cwd w /\ env w' = env w /\
   write_fault w' = write_fault w /\ close_fault w' = close_fault w) /\
  (forall k,
     fs w' !! k = fs w !! k \/
     (fs w !! k = None /\ fs w' !! k = Some Dir) \/
     (fs w !! k <> Some Dir /\
      exists n, fs w' !! k = Some (File (take n b)) /\
                locate w' (snapPath c t) = Found k (File (take n b)))) /\
  (update_mode w = false -> forall k, fs w' !! k = Some Dir -> fs w !! k = Some Dir).
Proof.
  cbv zeta.
  assert (same_but w (final (Config_Assert c t b w)) (snapPath c t) b /\
          (update_mode w = false ->
           forall k, fs (final (Config_Assert c t b w)) !! k = Some Dir ->
                     fs w !! k = Some Dir)) as [[Hp Hfs] Hoff];
    [|split; [exact Hp | split; [exact Hfs | exact Hoff]]].
  assert (forall e w' tr k,
            create_outcome w (snapPath c t) b e w' tr ->
            fs w' !! k = Some Dir -> fs w !! k = Some Dir) as Hdirs.
  { intros e w' tr k H.
    apply create_outcome_file in H as [->|(k' & n & Hk' & ->)]; [done |].
    cbn [fs with_file set_fs]. destruct (decide (k = k')) as [->|Hk].
    - by rewrite lookup_insert_eq.
    - by rewrite lookup_insert_ne. }
  branches c t b w; cbn [final]; try (split; [apply same_but_refl | done]).
  - split; [|congruence].
    eapply adds_dirs_same_but; [by eapply MkdirAll_adds_dirs | apply same_but_refl].
  - split; [|congruence].
    eapply adds_dirs_same_but; [by eapply MkdirAll_adds_dirs |].
    by eapply create_outcome_same_but.
  - split; [by eapply create_outcome_same_but |]. intros _ k. by eapply Hdirs.
  - split; [by eapply create_outcome_same_but |]. intros _ k. by eapply Hdirs.
Qed.

(** X3. A snapshot can be lost in update mode. Where the stored snapshot
    differs from the asserted bytes and the device refuses the write after
    [n] bytes, [createSnapshot] has already truncated the file: the
    assertion stops the test with the error of the write, the stored
    snapshot is then the first [n] of the asserted bytes, and the file is
    not closed. Where the write is taken and the close reports an error,
    the assertion stops the test although the snapshot holds exactly the
    asserted bytes. *)
Theorem storage_failure_is_fatal (c : Config) (t : TB) (b old : list byte)
    (w : world) :
  not_exist w (Config.Directory c) = false ->
  stored w c t = Some old ->
  old <> b ->
  update_mode w = true ->
  let r := Config_Assert c t b w in
  (forall n e,
     write_fault w = Some (n, e) ->
     out r = Fatal ("Unable to create snapshot: write " +:+ snapPath c t +:+ ": " +:+
                    errno_string e) /\
     stored (final r) c t = Some (take n b) /\
     trace r = [CallStat (Config.Directory c); CallReadFile (snapPath c t);
                CallLookupEnv "UPDATE_SNAPSHOTS";
                CallCreate (snapPath c t); CallWrite (snapPath c t) b]) /\
  (forall e,
     write_fault w = None -> close_fault w = Some e ->
     out r = Fatal ("Unable to create snapshot: close " +:+ snapPath c t +:+ ": " +:+
                    errno_string e) /\
     stored (final r) c t = Some b).
Proof.
  intros Hexists Hstored Hdiffer Hmode. cbv zeta.
  destruct (file_at_exists _ _ _ Hstored) as [k0 Hk0].
  assert (creatable w (snapPath c t) k0) as Hc0 by (right; by exists old).
  branches c t b w; try congruence.
  cbn [out final trace].
  inversion Hcreate as [err Hc1|k n e1 Hk Hf1|k e1 Hk Hf1 Hf2|k Hk [Hh1 Hh2]]; subst.
  - by apply (create_not_refused _ _ _ err) in Hc0.
  - split.
    + intros n' e' E. rewrite Hf1 in E. inversion E; subst.
      split; [done |]. split; [by apply file_at_created | done].
    + intros e' E. congruence.
  - split.
    + intros n' e' E. congruence.
    + intros e' _ E. rewrite Hf2 in E. inversion E; subst.
      split; [done |]. by apply file_at_created.
  - split.
    + intros n' e' E. congruence.
    + intros e' _ E. congruence.
Qed.

Lemma create_outcome_writes (w w' : world) (p : string) (b : list byte)
    (e : option error) (tr : list call) (q : string) (x : list byte) :
  create_outcome w p b e w' tr -> CallWrite q x ∈ tr ->
  q = p /\ x = b /\ CallCreate p ∈ tr.
Proof.
  intros H Hin. inversion H; subst;
    (repeat (apply elem_of_cons in Hin as [Hin|Hin];
             [inversion Hin; subst; repeat split; by apply elem_of_cons; left |]));
    by apply elem_of_nil in Hin.
Qed.

(** X4. Whatever an assertion writes is the asserted bytes, and it writes
    them to the snapshot file of the test, which it has created or
    truncated for it: every write in the run is a write of [b] to the path
    of the snapshot, and [os.Create] was called on that path. *)
Theorem writes_only_asserted (c : Config) (t : TB) (b : list byte) (w : world)
    (q : string) (x : list byte) :
  CallWrite q x ∈ trace (Config_Assert c t b w) ->
  q = snapPath c t /\ x = b /\ CallCreate (snapPath c t) ∈ trace (Config_Assert c t b w).
Proof.
  intros Hin.
  branches c t b w; cbn [out trace] in *; try (by not_in_calls Hin).
  - apply elem_of_app in Hin as [Hin|Hin]; [by not_in_calls Hin |].
    destruct (create_outcome_writes _ _ _ _ _ _ _ _ Hcreate Hin) as (-> & -> & H).
    repeat split. apply elem_of_app. by right.
  - apply elem_of_app in Hin as [Hin|Hin]; [by not_in_calls Hin |].
    destruct (create_outcome_writes _ _ _ _ _ _ _ _ Hcreate Hin) as (-> & -> & H).
    repeat split. apply elem_of_app. by right.
  - apply elem_of_app in Hin as [Hin|Hin]; [by not_in_calls Hin |].
    destruct (create_outcome_writes _ _ _ _ _ _ _ _ Hcreate Hin) as (-> & -> & H).
    repeat split. apply elem_of_app. by right.
  - apply elem_of_app in Hin as [Hin|Hin]; [by not_in_calls Hin |].
    unfold find_calls in Hin. destruct (Config.ignore c); by not_in_calls Hin.
Qed.

(** X5. In update mode nothing is compared beyond the bytes: the diff
    engine and the pattern matcher are never called, and the only way an
    assertion can fail is that the file system refuses the directory or
    the file. *)
Theorem update_mode_never_diffs (c : Config) (t : TB) (b : list byte) (w : world) :
  update_mode w = true ->
  let r := Config_Assert c t b w in
  (forall x y n, CallUnifiedDiff x y n ∉ trace r) /\
  (forall s, CallFindStringIndex s ∉ trace r) /\
  (forall msg, out r = Fatal msg ->
     msg = "Unable to create the snapshot directory, failing" \/
     exists err, msg = "Unable to create snapshot: " +:+ Error err).
Proof.
  intros Hmode. cbv zeta.
  assert (forall w0 e w1 tr,
            create_outcome w0 (snapPath c t) b e w1 tr ->
            (forall x y n, CallUnifiedDiff x y n ∉ tr) /\
            (forall s, CallFindStringIndex s ∉ tr) /\
            (forall msg, finish e = Fatal msg ->
               exists err, msg = "Unable to create snapshot: " +:+ Error err))
    as Hquiet.
  { intros w0 e w1 tr H. split; [|split].
    - intros x y n Hin.
      by destruct (create_outcome_quiet _ _ _ _ _ _ _ H Hin) as [?|[?|?]].
    - intros s Hin.
      by destruct (create_outcome_quiet _ _ _ _ _ _ _ H Hin) as [?|[?|?]].
    - intros msg E. destruct e as [err|]; [|done]. exists err. by inversion E. }
  branches c t b w; cbn [out trace]; try congruence.
  - split; [|split]; [intros x y n Hin | intros s Hin | intros msg E; left; by inversion E];
      by not_in_calls Hin.
  - destruct (Hquiet _ _ _ _ Hcreate) as (H1 & H2 & H3).
    split; [|split]; [intros x y n Hin | intros s Hin | intros msg E; right; by apply H3].
    + apply elem_of_app in Hin as [Hin|Hin]; [by not_in_calls Hin | by apply H1 in Hin].
    + apply elem_of_app in Hin as [Hin|Hin]; [by not_in_calls Hin | by apply H2 in Hin].
  - destruct (Hquiet _ _ _ _ Hcreate) as (H1 & H2 & H3).
    split; [|split]; [intros x y n Hin | intros s Hin | intros msg E; right; by apply H3].
    + apply elem_of_app in Hin as [Hin|Hin]; [by not_in_calls Hin | by apply H1 in Hin].
    + apply elem_of_app in Hin as [Hin|Hin]; [by not_in_calls Hin | by apply H2 in Hin].
  - split; [|split]; [intros x y n Hin | intros s Hin | done]; by not_in_calls Hin.
  - destruct (Hquiet _ _ _ _ Hcreate) as (H1 & H2 & H3).
    split; [|split]; [intros x y n Hin | intros s Hin | intros msg E; right; by apply H3].
    + apply elem_of_app in Hin as [Hin|Hin]; [by not_in_calls Hin | by apply H1 in Hin].
    + apply elem_of_app in Hin as [Hin|Hin]; [by not_in_calls Hin | by apply H2 in Hin].
Qed.

End Guarantees.

(** ** The snapshot store *)

Section Store.
Context {L : Libraries}.

(** X6. [createSnapshot] never stops the test, and it is not all or
    nothing. Where it returns no error, the path leads to a file that
    holds exactly the bytes [b], and the rest of the file system is as it
    was. Where it returns an error, either nothing has changed, or the
    file has been created or truncated and holds the first bytes of [b]
    that the device took (all of them where only the close failed); what
    the file held before is gone in both cases. *)
Theorem createSnapshot_outcomes (testname : string) (b : list byte)
    (dir ext : string) (w : world) :
  let p := path_Join dir (getSnapFilename testname ext) in
  let r := createSnapshot testname b dir ext w in
  (exists e, out r = Done e) /\
  (out r = Done None ->
   healthy w /\
   exists k, creatable w p k /\ final r = with_file w k b /\
             file_at (final r) p = Some b) /\
  (forall err, out r = Done (Some err) ->
   final r = w \/
   exists k n, creatable w p k /\ final r = with_file w k (take n b) /\
               file_at (final r) p = Some (take n b) /\
               (write_fault w = None -> take n b = b)).
Proof.
  cbv zeta.
  destruct (createSnapshot_cases testname b dir ext w) as (e & w' & tr & Hrun & Hcase).
  rewrite Hrun. cbn [out final].
  split; [by exists e |].
  inversion Hcase as [err Hc1|k n e1 Hk Hf1|k e1 Hk Hf1 Hf2|k Hk Hh]; subst.
  - split; [done |]. intros err' _. by left.
  - split; [done |]. intros err' _. right. exists k, n.
    split; [done |]. split; [done |]. split; [by apply file_at_created | congruence].
  - split; [done |]. intros err' _. right. exists k, (length b).
    rewrite take_ge by done.
    split; [done |]. split; [done |]. split; [by apply file_at_created | done].
  - split; [|done]. intros _. split; [done |]. exists k.
    split; [done |]. split; [done |]. by apply file_at_created.
Qed.

(** X7. Writing and reading back: after a [createSnapshot] that returned
    no error, [readSnapshot] for the same test, directory and extension
    returns exactly the bytes that were written, and changes nothing. *)
Theorem create_then_read (testname : string) (b : list byte) (dir ext : string)
    (w : world) :
  out (createSnapshot testname b dir ext w) = Done None ->
  let w' := final (createSnapshot testname b dir ext w) in
  readSnapshot testname dir ext w' =
  Run (Done (OK b)) w' [CallReadFile (path_Join dir (getSnapFilename testname ext))].
Proof.
  intros Hout. cbv zeta.
  destruct (createSnapshot_cases testname b dir ext w) as (e & w' & tr & Hrun & Hcase).
  rewrite Hrun in Hout |- *. cbn [out final] in *.
  inversion Hout; subst.
  apply create_outcome_written in Hcase as (k & Hk & _ & -> & _).
  unfold readSnapshot. apply ReadFile_some. by apply file_at_created.
Qed.

(** X8. Where the path of the snapshot leads to a directory, the
    assertion stops the test with the error of the refused file, in update
    mode and out of it, and changes nothing. *)
Theorem occupied_path_is_fatal (c : Config) (t : TB) (b : list byte) (w : world)
    (k : list string) :
  not_exist w (Config.Directory c) = false ->
  locate w (snapPath c t) = Found k Dir ->
  Config_Assert c t b w =
  Run (Fatal ("Unable to create snapshot: open " +:+ snapPath c t +:+
              ": is a directory"))
      w [CallStat (Config.Directory c); CallReadFile (snapPath c t);
         CallCreate (snapPath c t)].
Proof.
  intros Hdir Hk.
  assert (stored w c t = None) as Hst.
  { unfold stored, file_at. by rewrite Hk. }
  enter c. unfold not_exist in Hdir. rewrite Hdir.
  destruct (ReadFile_none _ _ Hst) as [err Hread].
  unfold readSnapshot. rewrite (bind_done _ _ _ _ _ _ Hread).
  cbv beta iota. unfold createSnapshot. fold (snapPath c t).
  rewrite (bind_done (bind (os_Create _) _) _ w w
             (Some (PathError "open" (snapPath c t) EISDIR))
             [CallCreate (snapPath c t)]).
  - reflexivity.
  - rewrite (bind_done (os_Create _) _ w w
               (Err (PathError "open" (snapPath c t) EISDIR))
               [CallCreate (snapPath c t)]); [done |].
    unfold os_Create, syscall. by rewrite Hk.
Qed.

(** X10. With the empty string as snapshot directory every assertion
    stops the test and changes nothing, also one whose bytes equal a file
    of the snapshot's name in the working directory: the empty path does
    not exist, and in update mode it cannot be made. *)
Theorem empty_directory_is_fatal (c : Config) (t : TB) (b : list byte) (w : world) :
  Config.Directory c = "" ->
  final (Config_Assert c t b w) = w /\
  out (Config_Assert c t b w) =
  Fatal (if update_mode w
         then "Unable to create the snapshot directory, failing"
         else "No snapshot directory exists and UPDATE_SNAPSHOTS=false.  Failing.").
Proof.
  intros Hempty.
  assert (not_exist w (Config.Directory c) = true) as Hmissing by (by rewrite Hempty).
  destruct (update_mode w) eqn:Hmode.
  - branches c t b w; try congruence; cbn [out final];
      rewrite Hempty, MkdirAll_empty in Hmk; by inversion Hmk.
  - by rewrite (run_no_directory c t b w Hmissing Hmode).
Qed.

(** X11. A mismatch is reported with its diff: with update mode off, a
    diffable configuration without ignore pattern and a stored snapshot
    that differs from the asserted bytes, the assertion fails with a
    message that names the test and ends in the diff text; the diff engine
    is called once, with the lines of the stored snapshot as first side,
    the lines of the asserted bytes as second side and the configured
    number of context lines; the world is left as it was. *)
Theorem mismatch_reports_diff (c : Config) (t : TB) (b expected : list byte)
    (w : world) (diff : string) :
  not_exist w (Config.Directory c) = false ->
  stored w c t = Some expected ->
  expected <> b ->
  update_mode w = false ->
  Config.Diffable c = true ->
  Config.ignore c = None ->
  diff_text expected b (Config.Context c) = OK diff ->
  Config_Assert c t b w =
  Run (Fatal ("Snapshot test failed for: " +:+ Name t +:+ ".  Diff:" +:+
              nl +:+ nl +:+ diff))
      w [CallStat (Config.Directory c); CallReadFile (snapPath c t);
         CallLookupEnv "UPDATE_SNAPSHOTS";
         CallUnifiedDiff (difflib_SplitLines (string_of_list_byte expected))
                         (difflib_SplitLines (string_of_list_byte b))
                         (Config.Context c)].
Proof.
  intros Hdir Hst Hne Hup Hd Hig Hdiff.
  rewrite (run_diff c t b expected w diff Hdir Hst Hne Hup Hd Hdiff).
  unfold verdict, find_calls. by rewrite Hig.
Qed.

End Store.

(** ** Configuration and file names *)

Section Configuring.
Context {L : Libraries}.

Lemma apply_options_configured (specs : list option_spec) (c : Config) :
  apply_options (map to_option specs) c =
  match first_bad specs with
  | Some err => Err err
  | None => OK (configured specs c)
  end.
Proof.
  revert c. induction specs as [|o specs IH]; intros c.
  - by destruct c.
  - destruct o as [dir|n|d|r|ext]; simpl; try (by rewrite IH).
    unfold IgnoreRegex. destruct (regexp_Compile r) as [re|err] eqn:E; [|done].
    rewrite IH. destruct (first_bad specs); [done |].
    unfold configured. simpl. by rewrite E.
Qed.

(** X12. What [New] builds from the options of the package: each option
    sets its own field and nothing else, the last option of a kind wins,
    and a field without option keeps its default (the directory
    [__snapshots__] under the working directory, 10 context lines,
    diffable, the extension [.snap], no ignore pattern). If any
    [IgnoreRegex] pattern does not compile, also one that a later
    [IgnoreRegex] would replace, [New] returns the error of the first such
    pattern and no configuration. *)
Theorem New_configured (specs : list option_spec) (w : world) :
  node_at w (cwd w) = Some Dir ->
  New (map to_option specs) w =
  Run (Done (match first_bad specs with
             | Some err => Err err
             | None => OK (configured specs (default_config (render true (cwd w))))
             end))
      w [CallGetwd].
Proof.
  intros Hcwd. unfold New.
  rewrite (bind_done os_Getwd _ w w (OK (render true (cwd w))) [CallGetwd]).
  - cbv beta iota. unfold ret. cbn [out final trace].
    by rewrite apply_options_configured.
  - unfold os_Getwd, syscall. by rewrite Hcwd.
Qed.

Lemma New_nil_run (w : world) :
  node_at w (cwd w) = Some Dir ->
  New [] w = Run (Done (OK (default_config (render true (cwd w))))) w [CallGetwd].
Proof.
  intros Hcwd. unfold New.
  rewrite (bind_done os_Getwd _ w w (OK (render true (cwd w))) [CallGetwd]).
  - reflexivity.
  - unfold os_Getwd, syscall. by rewrite Hcwd.
Qed.

(** X13. Where the working directory cannot be determined, [New] returns
    the error of [os.Getwd] without running any option, and the
    package-level [Assert] stops the test with that error before it looks
    at the file system; nothing is changed. *)
Theorem no_working_directory (options : list ConfigOption) (t : TB)
    (x : any value) (w : world) :
  node_at w (cwd w) <> Some Dir ->
  New options w = Run (Done (Err (SyscallError "getwd" ENOENT))) w [CallGetwd] /\
  Assert t x w =
  Run (Fatal "Unable to create new snapshot config: getwd: no such file or directory")
      w [CallGetwd].
Proof.
  intros Hcwd.
  assert (os_Getwd w = Run (Done (Err (SyscallError "getwd" ENOENT))) w [CallGetwd])
    as Hwd.
  { unfold os_Getwd, syscall. by destruct (node_at w (cwd w)) as [[|?]|]. }
  assert (forall opts, New opts w =
            Run (Done (Err (SyscallError "getwd" ENOENT))) w [CallGetwd]) as HNew.
  { intros opts. unfold New. by rewrite (bind_done _ _ _ _ _ _ Hwd). }
  split; [apply HNew |].
  unfold Assert. by rewrite (bind_done _ _ _ _ _ _ (HNew [])).
Qed.

(** The package-level [Assert] is [Config.Assert] with the default
    configuration, run after the call to [os.Getwd]: on a byte slice it
    compares the bytes themselves, on any other value the bytes of its
    dump. *)
Lemma Assert_is_default_assert (t : TB) (x : any value) (w : world) :
  node_at w (cwd w) = Some Dir ->
  Assert t x w =
  after_Getwd (Config_Assert (default_config (render true (cwd w))) t (serialized x) w).
Proof.
  intros Hcwd. unfold Assert.
  rewrite (bind_done _ _ _ _ _ _ (New_nil_run w Hcwd)). cbv beta iota.
  by destruct x.
Qed.

Lemma resolve_None (w : world) (p : string) : resolve w p = None <-> p = "".
Proof. unfold resolve. by destruct (decide (p = "")). Qed.

Lemma walk_names (es cur : list string) :
  Forall is_name es -> walk cur es = rev es ++ cur.
Proof.
  intros H. revert cur. induction H as [|e es He Hes IH]; intros cur; [done |].
  change (e :: es) with ([e] ++ es). rewrite walk_app, walk_name by done.
  rewrite IH. simpl. by rewrite <- app_assoc.
Qed.

Lemma walk_empty_elem (cur es : list string) : walk cur ("" :: es) = walk cur es.
Proof. simpl. by destruct (decide ("" = "")). Qed.

Lemma resolve_render (w : world) (k : list string) :
  Forall (fun e => simple_name e = true) k ->
  resolve w (render true k) = Some k.
Proof.
  intros Hk.
  assert (Forall is_name k /\ Forall is_elem k) as [Hn He].
  { split; eapply Forall_impl; try exact Hk; intros e H;
      apply simple_name_spec in H as [Hname Hs]; [done |].
    split; [apply Hname | done]. }
  unfold resolve, render.
  change ("/" +:+ join_slash k) with (String "/" (join_slash k)).
  destruct (decide (String "/" (join_slash k) = "")) as [|_]; [done |].
  rewrite split_slash_rooted. cbn [rooted].
  destruct k as [|e k]; [simpl; by destruct (decide ("" = "")) |].
  rewrite split_join_slash by done.
  rewrite walk_empty_elem, walk_names by done.
  by rewrite app_nil_r, rev_involutive.
Qed.

(** X14. The default snapshot directory is the entry [__snapshots__] of
    the working directory: the directory of the configuration that [New]
    returns without options resolves to that entry. *)
Theorem New_default_directory (w : world) (c : Config) :
  Forall (fun e => simple_name e = true) (cwd w) ->
  out (New [] w) = Done (OK c) ->
  resolve w (Config.Directory c) = Some (cwd w ++ ["__snapshots__"]) /\
  Config.Context c = 10%Z /\ Config.Diffable c = true /\
  Config.Extension c = ".snap" /\ Config.ignore c = None.
Proof.
  intros Hcwd Hout.
  assert (node_at w (cwd w) = Some Dir) as Hdir.
  { unfold New, bind, os_Getwd, syscall in Hout. simpl in Hout.
    by destruct (node_at w (cwd w)) as [[|?]|]. }
  rewrite (New_nil_run w Hdir) in Hout. inversion Hout; subst. clear Hout.
  unfold default_config. simpl.
  split; [|done].
  rewrite resolve_path_Join; [by rewrite resolve_render | | done].
  unfold render. done.
Qed.

(** X15. No test name leads out of the snapshot directory: with an
    extension without slash of at least three bytes (as the default
    [.snap]) the path of the snapshot resolves, for every test name, to an
    entry of the snapshot directory itself, whatever slashes, dots or
    backslashes the name contains. *)
Theorem snapshot_in_directory (c : Config) (t : TB) (w : world) :
  Config.Directory c <> "" ->
  has_byte "/" (Config.Extension c) = false ->
  3 <= String.length (Config.Extension c) ->
  exists kd,
    resolve w (Config.Directory c) = Some kd /\
    resolve w (snapPath c t) =
      Some (kd ++ [getSnapFilename (Name t) (Config.Extension c)]) /\
    has_byte "/" (getSnapFilename (Name t) (Config.Extension c)) = false.
Proof.
  intros Hd Hslash Hlen.
  pose proof (getSnapFilename_simple (Name t) _ Hslash Hlen) as Hf.
  destruct (resolve w (Config.Directory c)) as [kd|] eqn:Hkd;
    [|by apply resolve_None in Hkd].
  exists kd. split; [done |]. split.
  - unfold snapPath. by rewrite resolve_path_Join, Hkd.
  - by apply simple_name_spec in Hf as [_ Hf].
Qed.

Lemma normal_idempotent (c : ascii) : normal (normal c) = normal c.
Proof. destruct c as [[] [] [] [] [] [] [] []]; reflexivity. Qed.

Lemma normal_ascii (c : ascii) : is_ascii c = true -> is_ascii (normal c) = true.
Proof. destruct c as [[] [] [] [] [] [] [] []]; done. Qed.

Lemma normal_lower (c : ascii) : normal (lower_byte c) = normal c.
Proof. destruct c as [[] [] [] [] [] [] [] []]; reflexivity. Qed.

Lemma lower_ascii (c : ascii) : is_ascii c = true -> is_ascii (lower_byte c) = true.
Proof. destruct c as [[] [] [] [] [] [] [] []]; done. Qed.

Lemma normal_dashed (c : ascii) : normal (dashed c) = normal c.
Proof. destruct c as [[] [] [] [] [] [] [] []]; reflexivity. Qed.

Lemma dashed_ascii (c : ascii) : is_ascii c = true -> is_ascii (dashed c) = true.
Proof. destruct c as [[] [] [] [] [] [] [] []]; done. Qed.

Lemma map_bytes_map_bytes (f g : ascii -> ascii) (s : string) :
  map_bytes f (map_bytes g s) = map_bytes (fun c => f (g c)) s.
Proof. induction s as [|c s IH]; simpl; [done | by rewrite IH]. Qed.

Lemma all_bytes_map (f : ascii -> ascii) (s : string) :
  (forall c, is_ascii c = true -> is_ascii (f c) = true) ->
  all_bytes is_ascii s = true -> all_bytes is_ascii (map_bytes f s) = true.
Proof.
  intros Hf. induction s as [|c s IH]; simpl; [done |].
  intros [Hc Hs]%andb_true_iff. by rewrite Hf, IH.
Qed.

Lemma append_cancel_r (a b e : string) : a +:+ e = b +:+ e -> a = b.
Proof.
  revert b. induction a as [|x a IH]; intros [|y b] E.
  - done.
  - apply (f_equal String.length) in E.
    rewrite append_nil_l, append_cons in E. simpl in E.
    rewrite length_append in E. lia.
  - apply (f_equal String.length) in E.
    rewrite append_nil_l, append_cons in E. simpl in E.
    rewrite length_append in E. lia.
  - rewrite !append_cons in E. inversion E; subst. f_equal. by apply IH.
Qed.

Lemma getSnapFilename_ascii (testname ext : string) :
  all_bytes is_ascii testname = true ->
  getSnapFilename testname ext = map_bytes normal testname +:+ ext.
Proof.
  intros H. unfold getSnapFilename, Replacer_Replace, strings_ToLower.
  rewrite H, map_bytes_map_bytes. f_equal.
  apply map_bytes_ext. intros c. apply replace_byte_dashed.
Qed.

(** X16. Test names can share a snapshot file. For names of ASCII bytes
    the file name depends only on the name with its letters in lower case
    and the eight replaced bytes turned into [-]: two names that agree
    after this share the file, so a name shares its file with its
    lower-case form, with the name in which the replaced bytes are already
    [-], and with the name part of its own file name. *)
Theorem names_share_snapshot (n1 n2 ext : string) :
  all_bytes is_ascii n1 = true ->
  all_bytes is_ascii n2 = true ->
  (map_bytes normal n1 = map_bytes normal n2 <->
   getSnapFilename n1 ext = getSnapFilename n2 ext) /\
  getSnapFilename (strings_ToLower n1) ext = getSnapFilename n1 ext /\
  getSnapFilename (map_bytes dashed n1) ext = getSnapFilename n1 ext /\
  getSnapFilename (map_bytes normal n1) ext = getSnapFilename n1 ext.
Proof.
  intros H1 H2.
  rewrite !getSnapFilename_ascii by done. split; [|split; [|split]].
  - split; [by intros -> | apply append_cancel_r].
  - unfold strings_ToLower. rewrite H1.
    rewrite getSnapFilename_ascii by (by apply all_bytes_map; [apply lower_ascii |]).
    rewrite map_bytes_map_bytes. f_equal. apply map_bytes_ext, normal_lower.
  - rewrite getSnapFilename_ascii by (by apply all_bytes_map; [apply dashed_ascii |]).
    rewrite map_bytes_map_bytes. f_equal. apply map_bytes_ext, normal_dashed.
  - rewrite getSnapFilename_ascii by (by apply all_bytes_map; [apply normal_ascii |]).
    rewrite map_bytes_map_bytes. f_equal. apply map_bytes_ext, normal_idempotent.
Qed.

End Configuring.

(** ** Assertions in a row and the package-level entry point *)

Section InARow.
Context {L : Libraries}.

(** X18. With update mode off a stored snapshot is never touched: where
    the test has a stored snapshot, of whatever content, the assertion
    leaves the world as it was and makes no call that creates a directory
    or creates or writes a file, whether it passes or fails. *)
Theorem stored_snapshot_untouched (c : Config) (t : TB) (b old : list byte)
    (w : world) :
  update_mode w = false ->
  stored w c t = Some old ->
  final (Config_Assert c t b w) = w /\
  forall x, x ∈ trace (Config_Assert c t b w) -> is_write_call x = false.
Proof.
  intros Hmode Hstored.
  assert (forall (l : list call) x, x ∈ l -> forallb (fun y => negb (is_write_call y)) l = true ->
            is_write_call x = false) as Hall.
  { intros l x Hin Hl. rewrite forallb_forall in Hl.
    apply negb_true_iff, Hl. by apply list_elem_of_In. }
  branches c t b w; cbn [final trace]; try congruence;
    (split; [done |]; intros x Hin; apply (Hall _ _ Hin)); try done.
  rewrite forallb_app. unfold find_calls. by destruct (Config.ignore c).
Qed.

Lemma repeated_fixed (n : nat) (c : Config) (t : TB) (b : list byte) (w : world) :
  final (Config_Assert c t b w) = w -> repeated n c t b w = w.
Proof.
  intros H. induction n as [|n IH]; [done |]. cbn [repeated]. by rewrite H.
Qed.

(** X19. With update mode off, an assertion that passes can be repeated
    any number of times: every repetition passes, and the world stays the
    one that the first assertion left. *)
Theorem repeat_passing_assertion (c : Config) (t : TB) (b : list byte) (w : world)
    (n : nat) :
  update_mode w = false ->
  passes (Config_Assert c t b w) ->
  repeated (S n) c t b w = final (Config_Assert c t b w) /\
  passes (Config_Assert c t b (repeated (S n) c t b w)).
Proof.
  intros Hup Hpass.
  destruct (Config_Assert_twice c t b w Hup Hpass) as [Hpass1 Hfix].
  cbn [repeated]. rewrite (repeated_fixed n c t b _ Hfix). by split.
Qed.

(** X20. The package-level [Assert] records and then compares: in a
    working directory whose [__snapshots__] is a directory in which the
    path of the snapshot leads to a free name, on a device that takes the
    write, [Assert] on a byte slice passes and leaves exactly one new
    file, the snapshot, with exactly these bytes; the same [Assert] again
    passes and changes nothing. *)
Theorem Assert_records_then_passes (t : TB) (b : list byte) (w : world)
    (k : list string) :
  let c := default_config (render true (cwd w)) in
  node_at w (cwd w) = Some Dir ->
  is_dir w (Config.Directory c) ->
  locate w (snapPath c t) = Absent k ->
  healthy w ->
  let r1 := Assert t (Bytes b) w in
  let r2 := Assert t (Bytes b) (final r1) in
  out r1 = Done tt /\
  final r1 = set_fs w (<[k := File b]> (fs w)) /\
  fs w !! k = None /\
  trace r1 = [CallGetwd; CallStat (Config.Directory c); CallReadFile (snapPath c t);
              CallCreate (snapPath c t); CallWrite (snapPath c t) b;
              CallClose (snapPath c t)] /\
  out r2 = Done tt /\ final r2 = final r1.
Proof.
  intros c Hwd Hdir Hk Hh. cbv zeta.
  assert (creatable w (snapPath c t) k) as Hc by (by left).
  pose proof (creatable_node _ _ _ Hc) as Hnode.
  assert (stored w c t = None) as Hst.
  { unfold stored, file_at. by rewrite Hk. }
  rewrite (Assert_is_default_assert t (Bytes b) w Hwd). fold c. cbn [serialized].
  rewrite (run_first c t b w k (is_dir_exists _ _ Hdir) Hst Hc Hh).
  unfold after_Getwd. cbn [out final trace].
  assert (node_at (with_file w k b) (cwd (with_file w k b)) = Some Dir) as Hwd1.
  { cbn [cwd with_file set_fs]. rewrite node_at_with_file by (by eapply not_dir_key).
    rewrite decide_False; [done |]. intros E. congruence. }
  assert (stored (with_file w k b) c t = Some b) as Hst1 by (by apply file_at_created).
  assert (not_exist (with_file w k b) (Config.Directory c) = false) as Hex1.
  { apply not_exist_with_file; [done | by apply is_dir_exists]. }
  rewrite (Assert_is_default_assert t (Bytes b) _ Hwd1).
  change (cwd (with_file w k b)) with (cwd w). fold c. cbn [serialized].
  rewrite (run_equal c t b _ Hex1 Hst1). unfold after_Getwd. cbn [out final].
  repeat split; try done.
  rewrite <- node_at_fs by (by eapply not_dir_key). by eapply locate_absent.
Qed.

End InARow.
(** ** The snapshot in its directory *)

Section InDirectory.
Context {L : Libraries}.

Lemma snapPath_locate (c : Config) (t : TB) (w : world) (kd : list string) (n : node) :
  locate w (Config.Directory c) = Found kd n ->
  has_byte "/" (Config.Extension c) = false ->
  3 <= String.length (Config.Extension c) ->
  fits (snapPath c t) ->
  locate w (snapPath c t) = seek w kd [getSnapFilename (Name t) (Config.Extension c)] /\
  locate_new w (snapPath c t) = locate w (snapPath c t).
Proof.
  intros Hd Hslash Hlen Hfits.
  pose proof (getSnapFilename_simple (Name t) _ Hslash Hlen) as Hf.
  split.
  - by apply (locate_path_Join w _ _ kd n).
  - apply locate_new_path_Join; [by intros E; rewrite E in Hd | done].
Qed.

(** A run in which neither the read nor the create of the snapshot gets
    to a file. *)
Lemma run_refused (c : Config) (t : TB) (b : list byte) (w : world) (e : errno) :
  not_exist w (Config.Directory c) = false ->
  locate w (snapPath c t) = Failed e ->
  locate_new w (snapPath c t) = locate w (snapPath c t) ->
  Config_Assert c t b w =
  Run (Fatal ("Unable to create snapshot: open " +:+ snapPath c t +:+ ": " +:+
              errno_string e))
      w [CallStat (Config.Directory c); CallReadFile (snapPath c t);
         CallCreate (snapPath c t)].
Proof.
  intros Hdir Hk Hnew.
  assert (stored w c t = None) as Hst.
  { unfold stored, file_at. by rewrite Hk. }
  enter c. unfold not_exist in Hdir. rewrite Hdir.
  destruct (ReadFile_none _ _ Hst) as [err Hread].
  unfold readSnapshot. rewrite (bind_done _ _ _ _ _ _ Hread).
  cbv beta iota. unfold createSnapshot. fold (snapPath c t).
  rewrite (bind_done (bind (os_Create _) _) _ w w
             (Some (PathError "open" (snapPath c t) e))
             [CallCreate (snapPath c t)]).
  - reflexivity.
  - rewrite (bind_done (os_Create _) _ w w
               (Err (PathError "open" (snapPath c t) e))
               [CallCreate (snapPath c t)]); [done |].
    unfold os_Create, syscall, create_errno. by rewrite Hnew, Hk.
Qed.

(** X9. Where the configured snapshot directory is a regular file, the
    assertion stops the test, in update mode and out of it: the snapshot
    can be neither read nor created below a file. Nothing is changed. *)
Theorem directory_is_a_file (c : Config) (t : TB) (b : list byte) (w : world)
    (kd : list string) (data : list byte) :
  locate w (Config.Directory c) = Found kd (File data) ->
  has_byte "/" (Config.Extension c) = false ->
  3 <= String.length (Config.Extension c) ->
  fits (snapPath c t) ->
  Config_Assert c t b w =
  Run (Fatal ("Unable to create snapshot: open " +:+ snapPath c t +:+
              ": not a directory"))
      w [CallStat (Config.Directory c); CallReadFile (snapPath c t);
         CallCreate (snapPath c t)].
Proof.
  intros Hd Hslash Hlen Hfits.
  destruct (snapPath_locate c t w kd _ Hd Hslash Hlen Hfits) as [Hk Hnew].
  apply (run_refused c t b w ENOTDIR).
  - unfold not_exist, lookup_node. by rewrite Hd.
  - rewrite Hk. cbn [seek]. apply locate_found in Hd. by rewrite Hd.
  - done.
Qed.

(** X21. The snapshot is an entry of the snapshot directory, also for the
    kernel: where the configured directory leads to a directory, with an
    extension without slash of at least three bytes (as the default
    [.snap]), a file name of at most [NAME_MAX] bytes and a path that the
    kernel takes, the path of the snapshot leads to the entry of the file
    name in that directory, whatever the test name is and however the
    directory is written. The stored snapshot is the file at that entry,
    and nothing is stored where the entry is free. *)
Theorem snapshot_is_entry (c : Config) (t : TB) (w : world) (kd : list string) :
  let f := getSnapFilename (Name t) (Config.Extension c) in
  locate w (Config.Directory c) = Found kd Dir ->
  has_byte "/" (Config.Extension c) = false ->
  3 <= String.length (Config.Extension c) ->
  String.length f <= NAME_MAX ->
  fits (snapPath c t) ->
  locate w (snapPath c t) = entry w kd f /\
  stored w c t = match fs w !! (kd ++ [f]) with
                 | Some (File data) => Some data
                 | _ => None
                 end /\
  (fs w !! (kd ++ [f]) = None -> nothing_at w (snapPath c t)).
Proof.
  intros f Hd Hslash Hlen Hname Hfits.
  destruct (snapPath_locate c t w kd _ Hd Hslash Hlen Hfits) as [Hk _].
  pose proof (getSnapFilename_simple (Name t) _ Hslash Hlen) as Hf.
  fold f in Hk, Hf.
  rewrite seek_entry in Hk by (try done; by eapply locate_found).
  split; [done |]. unfold stored, file_at, nothing_at. rewrite Hk. unfold entry.
  split.
  - by destruct (fs w !! (kd ++ [f])) as [[|?]|].
  - intros ->. by eexists.
Qed.

(** X22. A test name whose file name is longer than a file name may be
    cannot be recorded: where the snapshot directory is there, the
    assertion stops the test with the error of the refused file, in update
    mode and out of it, and changes nothing. *)
Theorem long_name_is_fatal (c : Config) (t : TB) (b : list byte) (w : world) :
  is_dir w (Config.Directory c) ->
  has_byte "/" (Config.Extension c) = false ->
  3 <= String.length (Config.Extension c) ->
  NAME_MAX < String.length (getSnapFilename (Name t) (Config.Extension c)) ->
  fits (snapPath c t) ->
  Config_Assert c t b w =
  Run (Fatal ("Unable to create snapshot: open " +:+ snapPath c t +:+
              ": file name too long"))
      w [CallStat (Config.Directory c); CallReadFile (snapPath c t);
         CallCreate (snapPath c t)].
Proof.
  intros [kd Hd] Hslash Hlen Hlong Hfits.
  destruct (snapPath_locate c t w kd _ Hd Hslash Hlen Hfits) as [Hk Hnew].
  pose proof (getSnapFilename_simple (Name t) _ Hslash Hlen) as Hf.
  apply simple_name_spec in Hf as [(H1 & H2 & H3) _].
  apply (run_refused c t b w ENAMETOOLONG).
  - by apply is_dir_exists; exists kd.
  - rewrite Hk. cbn [seek]. apply locate_found in Hd. rewrite Hd.
    rewrite !decide_False by done.
    destruct (NAME_MAX <? _)%nat eqn:E; [done |]. apply Nat.ltb_ge in E. lia.
  - done.
Qed.

End InDirectory.


(** ** The further properties on concrete inputs *)

Lemma pass_means_stored_witness :
  stored (final (Config_Assert demo_config {| Name := "TestNew" |} (bytes "new")
                   demo_world))
         demo_config {| Name := "TestNew" |}
  = Some (bytes "new").
Proof.
  apply (pass_means_stored demo_config {| Name := "TestNew" |} (bytes "new")
           demo_world).
  - exists tt. vm_compute. reflexivity.
  - reflexivity.
Defined.

(** On a full device the update of [TestOld] fails and leaves an empty
    snapshot. *)
Lemma storage_failure_is_fatal_witness :
  out (Config_Assert demo_config {| Name := "TestOld" |} (bytes "new") demo_world_full)
  = Fatal ("Unable to create snapshot: write /w/__snapshots__/testold.snap: " +:+
           "no space left on device") /\
  stored (final (Config_Assert demo_config {| Name := "TestOld" |} (bytes "new")
                   demo_world_full))
         demo_config {| Name := "TestOld" |}
  = Some [].
Proof.
  destruct (storage_failure_is_fatal demo_config {| Name := "TestOld" |} (bytes "new")
              (bytes "old") demo_world_full) as [H _].
  - vm_compute. reflexivity.
  - vm_compute. reflexivity.
  - vm_compute. discriminate.
  - vm_compute. reflexivity.
  - destruct (H 0%nat ENOSPC eq_refl) as (H1 & H2 & _). split; [exact H1 | exact H2].
Defined.

Lemma writes_only_asserted_witness :
  "/w/__snapshots__/testnew.snap" = snapPath demo_config {| Name := "TestNew" |} /\
  bytes "new" = bytes "new" /\
  CallCreate (snapPath demo_config {| Name := "TestNew" |}) ∈
    trace (Config_Assert demo_config {| Name := "TestNew" |} (bytes "new") demo_world).
Proof.
  apply (writes_only_asserted demo_config {| Name := "TestNew" |} (bytes "new")
           demo_world "/w/__snapshots__/testnew.snap" (bytes "new")).
  apply list_elem_of_In. vm_compute. do 3 right. left. reflexivity.
Defined.

Lemma update_mode_never_diffs_witness :
  CallUnifiedDiff ["old"] ["new"] 10 ∉
    trace (Config_Assert demo_config {| Name := "TestOld" |} (bytes "new")
             demo_world_update).
Proof.
  apply (update_mode_never_diffs demo_config {| Name := "TestOld" |} (bytes "new")
           demo_world_update).
  vm_compute. reflexivity.
Defined.

Lemma create_then_read_witness :
  out (readSnapshot (L := literal_libs) "TestNew" "/w/__snapshots__" ".snap"
         (final (createSnapshot (L := literal_libs) "TestNew" (bytes "new")
                   "/w/__snapshots__" ".snap" demo_world)))
  = Done (OK (bytes "new")).
Proof.
  rewrite (create_then_read (L := literal_libs) "TestNew" (bytes "new")
             "/w/__snapshots__" ".snap" demo_world).
  - reflexivity.
  - vm_compute. reflexivity.
Defined.

Lemma occupied_path_is_fatal_witness :
  out (Config_Assert demo_config {| Name := "TestDir" |} (bytes "new")
         demo_world_occupied)
  = Fatal "Unable to create snapshot: open /w/__snapshots__/testdir.snap: is a directory".
Proof.
  rewrite (occupied_path_is_fatal demo_config {| Name := "TestDir" |} (bytes "new")
             demo_world_occupied ["w"; "__snapshots__"; "testdir.snap"]).
  - vm_compute. reflexivity.
  - vm_compute. reflexivity.
  - vm_compute. reflexivity.
Defined.

Lemma directory_is_a_file_witness :
  out (Config_Assert (demo_with "/w/__snapshots__/testold.snap" true None)
         {| Name := "TestNew" |} (bytes "new") demo_world)
  = Fatal ("Unable to create snapshot: open " +:+
           "/w/__snapshots__/testold.snap/testnew.snap" +:+ ": not a directory").
Proof.
  rewrite (directory_is_a_file (demo_with "/w/__snapshots__/testold.snap" true None)
             {| Name := "TestNew" |} (bytes "new") demo_world
             ["w"; "__snapshots__"; "testold.snap"] (bytes "old")).
  - vm_compute. reflexivity.
  - vm_compute. reflexivity.
  - vm_compute. reflexivity.
  - vm_compute. lia.
  - split; [vm_compute; reflexivity | apply Nat.ltb_lt; vm_compute; reflexivity].
Defined.

(** The directory written with a detour through [/w] leads to the same
    entry. *)
Lemma snapshot_is_entry_witness :
  locate demo_world
    (snapPath (demo_with "/w/__snapshots__/../__snapshots__/" true None)
              {| Name := "TestOld" |})
  = Found ["w"; "__snapshots__"; "testold.snap"] (File (bytes "old")).
Proof.
  destruct (snapshot_is_entry (demo_with "/w/__snapshots__/../__snapshots__/" true None)
              {| Name := "TestOld" |} demo_world ["w"; "__snapshots__"]) as [H _].
  - vm_compute. reflexivity.
  - vm_compute. reflexivity.
  - vm_compute. lia.
  - apply Nat.leb_le. vm_compute. reflexivity.
  - split; [vm_compute; reflexivity | apply Nat.ltb_lt; vm_compute; reflexivity].
  - rewrite H. vm_compute. reflexivity.
Defined.

Lemma long_name_is_fatal_witness :
  out (Config_Assert demo_config {| Name := long_name |} (bytes "new") demo_world_update)
  = Fatal ("Unable to create snapshot: open " +:+
           snapPath demo_config {| Name := long_name |} +:+ ": file name too long").
Proof.
  rewrite (long_name_is_fatal demo_config {| Name := long_name |} (bytes "new")
             demo_world_update).
  - reflexivity.
  - exists ["w"; "__snapshots__"]. vm_compute. reflexivity.
  - vm_compute. reflexivity.
  - vm_compute. lia.
  - apply Nat.ltb_lt. vm_compute. reflexivity.
  - split; [vm_compute; reflexivity | apply Nat.ltb_lt; vm_compute; reflexivity].
Defined.

Lemma empty_directory_is_fatal_witness :
  out (Config_Assert (demo_with "" true None) {| Name := "TestOld" |} (bytes "old")
         demo_world)
  = Fatal "No snapshot directory exists and UPDATE_SNAPSHOTS=false.  Failing.".
Proof.
  destruct (empty_directory_is_fatal (demo_with "" true None) {| Name := "TestOld" |}
              (bytes "old") demo_world eq_refl) as [_ H].
  rewrite H. vm_compute. reflexivity.
Defined.

Lemma mismatch_reports_diff_witness :
  out (Config_Assert demo_config {| Name := "TestOld" |} (bytes "new") demo_world)
  = Fatal (msg_diff {| Name := "TestOld" |} demo_diff).
Proof.
  rewrite (mismatch_reports_diff demo_config {| Name := "TestOld" |} (bytes "new")
             (bytes "old") demo_world demo_diff).
  - reflexivity.
  - vm_compute. reflexivity.
  - vm_compute. reflexivity.
  - vm_compute. discriminate.
  - vm_compute. reflexivity.
  - reflexivity.
  - reflexivity.
  - vm_compute. reflexivity.
Defined.

(** The first pattern compiles, the second does not, the third would. *)
Lemma New_configured_witness :
  out (New (L := literal_libs)
         (map to_option [OptIgnoreRegex "a"; OptIgnoreRegex "("; OptIgnoreRegex "b"])
         demo_world)
  = Done (Err (LibError "error parsing regexp: missing closing )")).
Proof.
  rewrite (New_configured (L := literal_libs)
             [OptIgnoreRegex "a"; OptIgnoreRegex "("; OptIgnoreRegex "b"] demo_world).
  - vm_compute. reflexivity.
  - vm_compute. reflexivity.
Defined.

Lemma no_working_directory_witness :
  out (Assert (L := literal_libs) {| Name := "TestOld" |} (Bytes (bytes "old"))
         demo_world_lost)
  = Fatal "Unable to create new snapshot config: getwd: no such file or directory".
Proof.
  destruct (no_working_directory (L := literal_libs) [] {| Name := "TestOld" |}
              (Bytes (bytes "old")) demo_world_lost) as [_ H].
  - vm_compute. discriminate.
  - rewrite H. reflexivity.
Defined.

Lemma Assert_records_then_passes_witness :
  out (Assert (L := literal_libs) {| Name := "TestNew" |} (Bytes (bytes "new"))
         demo_world) = Done tt.
Proof.
  apply (Assert_records_then_passes (L := literal_libs) {| Name := "TestNew" |}
           (bytes "new") demo_world ["w"; "__snapshots__"; "testnew.snap"]).
  - vm_compute. reflexivity.
  - exists ["w"; "__snapshots__"]. vm_compute. reflexivity.
  - vm_compute. reflexivity.
  - split; reflexivity.
Defined.

Lemma New_default_directory_witness :
  resolve demo_world
    (Config.Directory (demo_with "/w/__snapshots__" true None))
  = Some (cwd demo_world ++ ["__snapshots__"]).
Proof.
  apply (New_default_directory (L := literal_libs) demo_world
           (demo_with "/w/__snapshots__" true None)).
  - repeat constructor.
  - vm_compute. reflexivity.
Defined.

(** A test name with slashes and dots stays inside the directory. *)
Lemma snapshot_in_directory_witness :
  exists kd,
    resolve demo_world (Config.Directory demo_config) = Some kd /\
    resolve demo_world (snapPath demo_config {| Name := "../../Etc/Passwd" |})
    = Some (kd ++ [getSnapFilename (L := literal_libs) "../../Etc/Passwd" ".snap"]) /\
    has_byte "/" (getSnapFilename (L := literal_libs) "../../Etc/Passwd" ".snap")
    = false.
Proof.
  apply (snapshot_in_directory demo_config {| Name := "../../Etc/Passwd" |} demo_world).
  - vm_compute. discriminate.
  - vm_compute. reflexivity.
  - vm_compute. lia.
Defined.

Lemma names_share_snapshot_witness :
  getSnapFilename (L := literal_libs) "Test A" ".snap"
  = getSnapFilename (L := literal_libs) "test/a" ".snap".
Proof.
  destruct (names_share_snapshot (L := literal_libs) "Test A" "test/a" ".snap")
    as [[Hshare _] _].
  - vm_compute. reflexivity.
  - vm_compute. reflexivity.
  - apply Hshare. vm_compute. reflexivity.
Defined.

Lemma stored_snapshot_untouched_witness :
  final (Config_Assert demo_config {| Name := "TestOld" |} (bytes "new") demo_world)
  = demo_world.
Proof.
  apply (stored_snapshot_untouched demo_config {| Name := "TestOld" |} (bytes "new")
           (bytes "old") demo_world).
  - vm_compute. reflexivity.
  - vm_compute. reflexivity.
Defined.

Lemma repeat_passing_assertion_witness :
  passes (Config_Assert demo_config {| Name := "TestNew" |} (bytes "new")
            (repeated 3 demo_config {| Name := "TestNew" |} (bytes "new") demo_world)).
Proof.
  apply (repeat_passing_assertion demo_config {| Name := "TestNew" |} (bytes "new")
           demo_world 2).
  - vm_compute. reflexivity.
  - exists tt. vm_compute. reflexivity.
Defined.
